(** * Classical music metadata tagger (music.py): a shallow embedding

    The development follows src/music.py function by function.

    - A Python [str] is a Rocq [string], read as a sequence of code points
      below 256; a Python [bytes] value is a [list byte].
    - The file system is a finite map from paths to file contents.  A path is
      a pair (parent directory, file name); directories themselves are not
      files and are not represented.
    - A file that mutagen can open as FLAC is represented by its parse
      ([FlacFile tags rest]); every other file is [Raw] bytes.
    - Python exceptions are explicit: a computation that may raise returns a
      [res]; a function whose body is wrapped in try/except returns a plain
      value.
    - The program's collaborators (the ffmpeg executable, the chat completion
      service, json.loads, the interactive confirmation prompt) are the fields
      of an environment record [Env]; every statement holds for all of them.
    - Console output is not modelled. *)

From Stdlib Require Import Strings.Byte Ascii ZArith.
From stdpp Require Import gmap strings list fin_maps pretty.

Local Open Scope Z_scope.
Set Warnings "-register-all,-clear-no-such-hyp".

(* ===================================================================== *)
(** * Part I: the embedding                                               *)
(* ===================================================================== *)

(** ** Python strings *)

Global Instance byte_eq_dec : EqDecision byte := Byte.byte_eq_dec.

(** [str.isspace] of one code point below 256: TAB..CR, FS..US, space,
    NEL and the non-breaking space.  The regular expression class [\s]
    uses the same test. *)
Definition py_isspace (c : ascii) : bool :=
  let n := N_of_ascii c in
  ((9 <=? n) && (n <=? 13) || (28 <=? n) && (n <=? 32)
   || (n =? 133) || (n =? 160))%N.

(** [str.lower] of one code point below 256: A..Z and the Latin-1 capitals
    (U+00C0..U+00DE except the multiplication sign) move up by 32. *)
Definition py_lower_char (c : ascii) : ascii :=
  let n := N_of_ascii c in
  if ((65 <=? n) && (n <=? 90)
      || (192 <=? n) && (n <=? 222) && negb (n =? 215))%N
  then ascii_of_N (n + 32) else c.

Fixpoint py_lower (s : string) : string :=
  match s with
  | EmptyString => EmptyString
  | String c r => String (py_lower_char c) (py_lower r)
  end.

Definition is_empty (s : string) : bool :=
  match s with EmptyString => true | String _ _ => false end.

Fixpoint lstrip_by (p : ascii → bool) (s : string) : string :=
  match s with
  | EmptyString => EmptyString
  | String c r => if p c then lstrip_by p r else s
  end.

Fixpoint rstrip_by (p : ascii → bool) (s : string) : string :=
  match s with
  | EmptyString => EmptyString
  | String c r =>
      let r' := rstrip_by p r in
      if is_empty r' && p c then EmptyString else String c r'
  end.

(** [s.strip(chars)] for the character class [p]. *)
Definition strip_by (p : ascii → bool) (s : string) : string :=
  rstrip_by p (lstrip_by p s).

(** [s.strip()] *)
Definition py_strip (s : string) : string := strip_by py_isspace s.

Definition startswith (s pre : string) : bool := String.prefix pre s.

Fixpoint endswith (s suf : string) : bool :=
  if String.eqb s suf then true
  else match s with
       | EmptyString => false
       | String _ r => endswith r suf
       end.

(** [s[n:]] *)
Fixpoint str_drop (n : nat) (s : string) : string :=
  match n, s with
  | O, _ => s
  | S n', String _ r => str_drop n' r
  | S _, EmptyString => EmptyString
  end.

(** [sep.join(l)] *)
Fixpoint py_join (sep : string) (l : list string) : string :=
  match l with
  | [] => ""
  | [x] => x
  | x :: r => x +:+ sep +:+ py_join sep r
  end.

(** ** Exceptions *)

Inductive exn :=
| AttributeError | TypeError | ValueError | KeyError
| JSONDecodeError | FileNotFoundError | OSError | APIError.

Inductive res (A : Type) :=
| Ok (a : A)
| Raise (e : exn).
Arguments Ok {A} a.
Arguments Raise {A} e.

Global Instance res_ret : MRet res := λ A a, Ok a.
Global Instance res_bind : MBind res := λ A B k m,
  match m with
  | Ok a => k a
  | Raise e => Raise e
  end.

Global Instance res_fmap : FMap res := λ A B f m,
  match m with
  | Ok a => Ok (f a)
  | Raise e => Raise e
  end.

(** [try: body / except Exception: return default] *)
Definition try_except {A} (body : res A) (default : A) : A :=
  match body with
  | Ok a => a
  | Raise _ => default
  end.

(** ** Files and the file system *)

(** A path: parent directory and file name. *)
Abbreviation path := (string * string)%type.

Definition ch (c : ascii) : byte := byte_of_ascii c.

Definition sig_fLaC : list byte := [ch "f"; ch "L"; ch "a"; ch "C"].
Definition sig_RIFF : list byte := [ch "R"; ch "I"; ch "F"; ch "F"].
Definition sig_WAVE : list byte := [ch "W"; ch "A"; ch "V"; ch "E"].
Definition sig_ID3 : list byte := [ch "I"; ch "D"; ch "3"].
Definition sig_mpeg : list byte := [xff; xfb].
Definition sig_OggS : list byte := [ch "O"; ch "g"; ch "g"; ch "S"].
Definition sig_ftyp : list byte := [ch "f"; ch "t"; ch "y"; ch "p"].
Definition sig_box18 : list byte := [x00; x00; x00; x18].
Definition sig_box1c : list byte := [x00; x00; x00; x1c].
Definition sig_box20 : list byte := [x00; x00; x00; x20].

(** Vorbis comments of a FLAC file: (key, value) pairs in file order; a key
    may occur several times. *)
Abbreviation vcomment := (list (string * string)).

Inductive content :=
| Raw (bytes : list byte)
| FlacFile (tags : vcomment) (rest : list byte).

Global Instance content_eq_dec : EqDecision content.
Proof. solve_decision. Defined.

Abbreviation FS := (gmap (string * string) content).

(** The leading bytes of a file, as [f.read(n)] returns them. *)
Definition read_bytes (c : content) (n : nat) : list byte :=
  match c with
  | Raw bytes => take n bytes
  | FlacFile _ rest => take n (sig_fLaC ++ rest)
  end.

(** ** detect_actual_format *)

Inductive format := flac | wav | mp3 | ogg | m4a | unknown.

Global Instance format_eq_dec : EqDecision format.
Proof. solve_decision. Defined.

(** The string the source returns for each kind. *)
Definition format_name (f : format) : string :=
  match f with
  | flac => "flac" | wav => "wav" | mp3 => "mp3"
  | ogg => "ogg" | m4a => "m4a" | unknown => "unknown"
  end.

(** The if/elif chain over [header]; [header[i:j]] is [take (j-i) (drop i _)]. *)
Definition sniff_header (header : list byte) : format :=
  if bool_decide (take 4 header = sig_fLaC) then flac
  else if bool_decide (take 4 header = sig_RIFF)
          && bool_decide (take 4 (drop 8 header) = sig_WAVE) then wav
  else if bool_decide (take 3 header = sig_ID3)
          || bool_decide (take 2 header = sig_mpeg) then mp3
  else if bool_decide (take 4 header = sig_OggS) then ogg
  else if bool_decide (take 4 (drop 4 header) = sig_ftyp)
          || bool_decide (take 4 header = sig_box18)
          || bool_decide (take 4 header = sig_box1c)
          || bool_decide (take 4 header = sig_box20) then m4a
  else unknown.

(** [open] raises for a missing file; the except clause returns 'unknown'. *)
Definition detect_actual_format (fs : FS) (file_path : path) : format :=
  try_except
    (match fs !! file_path with
     | None => Raise FileNotFoundError
     | Some c => Ok (sniff_header (read_bytes c 12))
     end)
    unknown.

(** ** pathlib: name, stem and suffix *)

(** Splits a name at its last dot: [Some (before, from the dot on)], or
    [None] when the name has no dot ([name.rfind('.') == -1]). *)
Fixpoint split_last_dot (name : string) : option (string * string) :=
  match name with
  | EmptyString => None
  | String c r =>
      match split_last_dot r with
      | Some (before, ext) => Some (String c before, ext)
      | None =>
          if Ascii.eqb c "." then Some (EmptyString, name) else None
      end
  end.

(** [PurePath.suffix] and [PurePath.stem]: with [i = name.rfind('.')], the
    name is split at [i] when [0 < i < len(name) - 1]. *)
Definition splits_at_dot (before ext : string) : bool :=
  negb (is_empty before) && (1 <? String.length ext)%nat.

Definition suffix (name : string) : string :=
  match split_last_dot name with
  | Some (before, ext) => if splits_at_dot before ext then ext else ""
  | None => ""
  end.

Definition stem (name : string) : string :=
  match split_last_dot name with
  | Some (before, ext) => if splits_at_dot before ext then before else name
  | None => name
  end.

(** ** mutagen: the tag dictionary of an open FLAC file *)

(** An open [FLAC] object: the path it was loaded from and its comments. *)
Record handle := { h_path : path; h_tags : vcomment }.

Global Instance handle_eq_dec : EqDecision handle.
Proof. solve_decision. Defined.

(** Keys are compared case-insensitively. *)
Definition key_match (tag key : string) : bool :=
  String.eqb (py_lower key) (py_lower tag).

(** [tag in audio] *)
Definition vc_contains {V} (tags : list (string * V)) (tag : string) : bool :=
  existsb (λ kv, key_match tag kv.1) tags.

(** [audio[tag]]: every value stored under the key, in file order.  (mutagen
    raises KeyError when there is none; the source asks [tag in audio]
    first.) *)
Definition vc_get {V} (tags : list (string * V)) (tag : string) : list V :=
  snd <$> filter (λ kv, Is_true (key_match tag kv.1)) tags.

(** [audio[key] = values]: the old entries of the key are deleted and one
    entry per value is appended. *)
Definition vc_set {V} (tags : list (string * V)) (key : string)
    (values : list V) : list (string * V) :=
  filter (λ kv, ¬ Is_true (key_match key kv.1)) tags ++ ((λ v, (key, v)) <$> values).

(** ** validate_flac_file *)

Inductive diagnostic :=
| NotAFlacFile (header : list byte)
| ErrorText (e : exn).

Inductive validation :=
| Valid (audio : handle)
| Invalid (why : diagnostic).

Definition validate_flac_file (fs : FS) (file_path : path) : validation :=
  try_except
    (match fs !! file_path with
     | None => Raise FileNotFoundError
     | Some c =>
         let header := read_bytes c 4 in
         if bool_decide (header ≠ sig_fLaC) then Ok (Invalid (NotAFlacFile header))
         else
           (* FLAC(file_path): mutagen parses the whole file or raises *)
           match c with
           | FlacFile tags _ => Ok (Valid {| h_path := file_path; h_tags := tags |})
           | Raw _ => Raise ValueError
           end
     end)
    (Invalid (ErrorText ValueError)).

(** ** has_proper_metadata *)

Definition required_fields : list (string * list string) :=
  [ ("composer", ["COMPOSER"]);
    ("work", ["ALBUM"; "WORK"]);
    ("title", ["TITLE"]);
    ("artist", ["ARTIST"; "ALBUMARTIST"]) ].

(** [tag in audio and audio[tag] and audio[tag][0].strip()] *)
Definition tag_has_value (tags : vcomment) (tag : string) : bool :=
  vc_contains tags tag &&
  match vc_get tags tag with
  | [] => false
  | first :: _ => negb (is_empty (py_strip first))
  end.

(** The inner loop: the first alias with a value wins. *)
Definition has_value (tags : vcomment) (tag_options : list string) : bool :=
  existsb (tag_has_value tags) tag_options.

Definition missing_fields (tags : vcomment) : list string :=
  fst <$> filter (λ f, ¬ Is_true (has_value tags f.2)) required_fields.

Definition has_proper_metadata (audio : handle) : bool * list string :=
  let missing := missing_fields (h_tags audio) in
  match missing with
  | [] => (true, [])
  | _ => (false, missing)
  end.

(** ** get_current_metadata *)

(** A snapshot value: one string, or a list when the tag is multi-valued. *)
Inductive tagvalue :=
| Single (s : string)
| Multi (l : list string).

Global Instance tagvalue_eq_dec : EqDecision tagvalue.
Proof. solve_decision. Defined.

(** The snapshot dictionary, in insertion order. *)
Abbreviation snapshot := (list (string * tagvalue)).

Definition snapshot_fields : list string :=
  [ "COMPOSER"; "ALBUM"; "WORK"; "TITLE"; "ARTIST"; "ALBUMARTIST";
    "ORCHESTRA"; "ENSEMBLE"; "PERFORMER"; "DATE"; "DISCNUMBER"; "TRACKNUMBER" ].

Definition snapshot_entry (tags : vcomment) (field : string)
    : option (string * tagvalue) :=
  if vc_contains tags field then
    match vc_get tags field with
    | [] => None
    | [v] => Some (field, Single v)
    | l => Some (field, Multi l)
    end
  else None.

Definition get_current_metadata (audio : handle) : snapshot :=
  omap (snapshot_entry (h_tags audio)) snapshot_fields.

(** [d.get(key)] on a snapshot. *)
Definition snapshot_get (d : snapshot) (key : string) : option tagvalue :=
  snd <$> find (λ kv, String.eqb kv.1 key) d.

(** ** JSON values and the Python operations applied to them *)

(** What [json.loads] returns.  Python's [None] is [JNull]; a [dict] keeps
    its items in insertion order, with distinct keys.  Numbers that are not
    integers are outside the model. *)
Inductive json :=
| JNull
| JBool (v : bool)
| JNum (n : Z)
| JStr (s : string)
| JArr (l : list json)
| JObj (items : list (string * json)).

(** Truth value of an object in a condition. *)
Definition py_truthy (v : json) : bool :=
  match v with
  | JNull => false
  | JBool v => v
  | JNum n => negb (n =? 0)
  | JStr s => negb (is_empty s)
  | JArr l => match l with [] => false | _ => true end
  | JObj items => match items with [] => false | _ => true end
  end.

(** [x or ""] *)
Definition or_empty (v : json) : json :=
  if py_truthy v then v else JStr "".

(** [d.get(key)] on a dict: the value, or [None]. *)
Definition dict_get (items : list (string * json)) (key : string) : json :=
  match find (λ kv, String.eqb kv.1 key) items with
  | Some kv => kv.2
  | None => JNull
  end.

(** [metadata.get]: only a dict has the method. *)
Definition as_dict (v : json) : res (list (string * json)) :=
  match v with
  | JObj items => Ok items
  | _ => Raise AttributeError
  end.

(** The characters of a string, as iterating over it yields them. *)
Fixpoint chars (s : string) : list string :=
  match s with
  | EmptyString => []
  | String c r => String c "" :: chars r
  end.

Definition as_str (v : json) : option string :=
  match v with JStr s => Some s | _ => None end.

(** [', '.join(v)]: [v] must be an iterable of strings.  A list is joined
    element by element, a string character by character, a dict key by key;
    anything else raises TypeError. *)
Definition join_value (sep : string) (v : json) : res string :=
  match v with
  | JArr l =>
      match mapM as_str l with
      | Some strs => Ok (py_join sep strs)
      | None => Raise TypeError
      end
  | JStr s => Ok (py_join sep (chars s))
  | JObj items => Ok (py_join sep (fst <$> items))
  | _ => Raise TypeError
  end.

(** ** The collaborators *)

(** What the request to the metadata service is built from. *)
Record request := {
  rq_filename : string;
  rq_context : list string;
  rq_existing : option snapshot;
}.

(** Outcome of [subprocess.run] on ffmpeg: the call raises, or the process
    exits with a return code, having written the output file or not. *)
Inductive ffmpeg_result :=
| FfmpegRaises (e : exn)
| FfmpegExit (returncode : Z) (output : option content).

Record Env := {
  (** [Path.home()] *)
  home : string;
  (** [shutil.which('ffmpeg')] finds the executable *)
  which_ffmpeg : bool;
  (** ffmpeg run on the input file (absent when the path does not exist) *)
  ffmpeg : option content → ffmpeg_result;
  (** [client.chat.completions.create]: raises, or answers with the message
      content (which may be None) *)
  chat_completion : request → res (option string);
  (** [json.loads] *)
  json_loads : string → res json;
  (** [str(v)] for a list or dict *)
  py_repr : json → string;
  (** the answer to [Confirm.ask] for a file *)
  confirm_ask : path → bool;
}.

(** [str(v)] *)
Definition py_str (E : Env) (v : json) : string :=
  match v with
  | JStr s => s
  | JNum n => pretty n
  | JBool true => "True"
  | JBool false => "False"
  | JNull => "None"
  | _ => py_repr E v
  end.

(** ** get_metadata_from_openrouter *)

Definition backtick : ascii := "`"%char.
Definition is_backtick (c : ascii) : bool := Ascii.eqb c backtick.
Definition fence : string := "```".
Definition json_fence : string := "```json".

(** The pattern [```json\s*(.*?)\s*```] with DOTALL, read as the
    backtracking matcher reads it. *)

(** The rest of the text matches [\s*```]. *)
Fixpoint closes_here (s : string) : bool :=
  startswith s fence ||
  match s with
  | EmptyString => false
  | String c r => py_isspace c && closes_here r
  end.

(** The lazy group [(.*?)] followed by [\s*```]: the shortest prefix after
    which the closing part matches. *)
Fixpoint lazy_group (s : string) : option string :=
  if closes_here s then Some ""
  else match s with
       | EmptyString => None
       | String c r => String c <$> lazy_group r
       end.

(** The greedy [\s*] before the group: it takes as much white space as it
    can and gives characters back only when the rest fails. *)
Fixpoint spaces_then_group (s : string) : option string :=
  match s with
  | String c r =>
      if py_isspace c then
        match spaces_then_group r with
        | Some g => Some g
        | None => lazy_group s
        end
      else lazy_group s
  | EmptyString => lazy_group s
  end.

(** [re.search(pattern, text, re.DOTALL)] and [.group(1)]: the leftmost
    position where the pattern matches. *)
Fixpoint search_json_fence (text : string) : option string :=
  let here :=
    if startswith text json_fence
    then spaces_then_group (str_drop 7 text) else None in
  match here with
  | Some g => Some g
  | None =>
      match text with
      | EmptyString => None
      | String _ r => search_json_fence r
      end
  end.

(** The text handed to [json.loads]. *)
Definition extract_json_text (text : string) : string :=
  match search_json_fence text with
  | Some group1 => group1
  | None =>
      if startswith text fence && endswith text fence then
        let text := py_strip (strip_by is_backtick text) in
        if startswith text "json" then py_strip (str_drop 4 text) else text
      else text
  end.

Definition build_request (filename : string) (context_files : list string)
    (existing_metadata : option snapshot) : request :=
  {| rq_filename := filename;
     rq_context := take 10 context_files;
     rq_existing :=
       match existing_metadata with
       | Some [] => None
       | other => other
       end |}.

(** The body of the try block. *)
Definition parse_reply (E : Env) (rq : request) : res json :=
  content ← chat_completion E rq;
  text ← match content with
         | Some text => Ok (py_strip text)
         | None => Raise AttributeError
         end;
  json_loads E (extract_json_text text).

(** Returns the parsed value, or [None] when anything in the try block
    raised. *)
Definition get_metadata_from_openrouter (E : Env) (filename : string)
    (context_files : list string) (existing_metadata : option snapshot) : json :=
  try_except (parse_reply E (build_request filename context_files existing_metadata))
             JNull.

(** ** convert_to_flac *)

(** [Path.home() / "Desktop" / "music_backups"] *)
Definition backup_folder (E : Env) : string :=
  home E +:+ "/Desktop/music_backups".

(** [file_path.parent / f".{file_path.stem}_converted.flac"] *)
Definition temp_output (file_path : path) : path :=
  (file_path.1, "." +:+ stem file_path.2 +:+ "_converted.flac").

(** [f"{stem}_original_{actual_format}{suffix}"] *)
Definition backup_name (file_path : path) (actual_format : format) : string :=
  stem file_path.2 +:+ "_original_" +:+ format_name actual_format
  +:+ suffix file_path.2.

(** [f"{stem}_original_{actual_format}_{counter}{suffix}"] *)
Definition numbered_backup_name (file_path : path) (actual_format : format)
    (counter : nat) : string :=
  stem file_path.2 +:+ "_original_" +:+ format_name actual_format
  +:+ "_" +:+ pretty counter +:+ suffix file_path.2.

(** The loop [while backup_path.exists(): ...; counter += 1].  The fuel
    bounds the number of iterations; [free_backup_path] below supplies
    more than the loop can use. *)
Fixpoint backup_loop (fuel : nat) (fs : FS) (numbered : nat → path)
    (backup_path : path) (counter : nat) : option path :=
  match fs !! backup_path with
  | None => Some backup_path
  | Some _ =>
      match fuel with
      | O => None
      | S fuel' => backup_loop fuel' fs numbered (numbered counter) (S counter)
      end
  end.

Definition free_backup_path (E : Env) (fs : FS) (file_path : path)
    (actual_format : format) : option path :=
  backup_loop (S (size fs)) fs
    (λ counter, (backup_folder E, numbered_backup_name file_path actual_format counter))
    (backup_folder E, backup_name file_path actual_format) 1.

(** [shutil.move(src, dst)] between file paths: raises when [src] is
    missing. *)
Definition move (fs : FS) (src dst : path) : res FS :=
  match fs !! src with
  | Some c => Ok (<[dst := c]> (delete src fs))
  | None => Raise FileNotFoundError
  end.

(** [if temp_output.exists(): temp_output.unlink()] *)
Definition unlink_if_exists (fs : FS) (p : path) : FS := delete p fs.

(** Returns the new handle, or [None], and the file system it leaves. *)
Definition convert_to_flac (E : Env) (fs : FS) (file_path : path)
    : option handle * FS :=
  if negb (which_ffmpeg E) then (None, fs)
  else
    let actual_format := detect_actual_format fs file_path in
    let temp := temp_output file_path in
    match ffmpeg E (fs !! file_path) with
    | FfmpegRaises _ => (None, unlink_if_exists fs temp)
    | FfmpegExit returncode output =>
        let fs := match output with
                  | Some c => <[temp := c]> fs
                  | None => fs
                  end in
        if negb (returncode =? 0) then (None, unlink_if_exists fs temp)
        else
          match fs !! temp with
          | None => (None, fs)
          | Some _ =>
              match free_backup_path E fs file_path actual_format with
              | None => (None, fs)
              | Some backup_path =>
                  match move fs file_path backup_path with
                  | Raise _ => (None, unlink_if_exists fs temp)
                  | Ok fs =>
                      match move fs temp file_path with
                      | Raise _ => (None, unlink_if_exists fs temp)
                      | Ok fs =>
                          match validate_flac_file fs file_path with
                          | Valid audio => (Some audio, fs)
                          | Invalid _ => (None, fs)
                          end
                      end
                  end
              end
          end
    end.

(** ** apply_metadata_to_flac *)

(** [audio[key] = value]: a value that is not a list is wrapped in one. *)
Definition to_values (v : json) : list json :=
  match v with
  | JArr l => l
  | _ => [v]
  end.

Definition set_if (cond : bool) (key : string) (values : list json)
    (tags : list (string * json)) : list (string * json) :=
  if cond then vc_set tags key values else tags.

(** [audio.save()]: mutagen checks that every value is a string, then
    rewrites the comment block of the file the handle was loaded from. *)
Definition checked_value (kv : string * json) : option (string * string) :=
  match kv.2 with
  | JStr s => Some (kv.1, s)
  | _ => None
  end.

Definition save (fs : FS) (file_path : path) (tags : list (string * json))
    : res FS :=
  match mapM checked_value tags with
  | None => Raise ValueError
  | Some tags =>
      match fs !! file_path with
      | Some (FlacFile _ rest) => Ok (<[file_path := FlacFile tags rest]> fs)
      | _ => Raise OSError
      end
  end.

(** The statements between [audio.clear()] and [audio.save()]. *)
Definition new_tags (E : Env) (metadata : list (string * json))
    : res (list (string * json)) :=
  let get := dict_get metadata in
  let tags := [] in
  let tags := set_if (py_truthy (get "composer")) "COMPOSER"
                (to_values (get "composer")) tags in
  let tags := set_if (py_truthy (get "work")) "ALBUM" (to_values (get "work")) tags in
  let tags := set_if (py_truthy (get "work")) "WORK" (to_values (get "work")) tags in
  let tags :=
    if py_truthy (get "movement")
    then vc_set tags "TITLE" (to_values (get "movement"))
    else set_if (py_truthy (get "work")) "TITLE" (to_values (get "work")) tags in
  tags ← (if py_truthy (get "performers") then
            joined ← join_value ", " (get "performers");
            Ok (vc_set (vc_set tags "ARTIST" [JStr joined])
                       "ALBUMARTIST" [JStr joined])
          else Ok tags);
  let tags := set_if (py_truthy (get "orchestra")) "ORCHESTRA"
                (to_values (get "orchestra")) tags in
  let tags := set_if (py_truthy (get "orchestra")) "ENSEMBLE"
                (to_values (get "orchestra")) tags in
  let tags := set_if (py_truthy (get "soloists")) "PERFORMER"
                (to_values (get "soloists")) tags in
  let tags := set_if (py_truthy (get "date")) "DATE"
                [JStr (py_str E (get "date"))] tags in
  let tags := set_if (py_truthy (get "disc")) "DISCNUMBER"
                [JStr (py_str E (get "disc"))] tags in
  let tags := set_if (py_truthy (get "track")) "TRACKNUMBER"
                [JStr (py_str E (get "track"))] tags in
  Ok tags.

(** Returns the success flag and the file system it leaves. *)
Definition apply_metadata_to_flac (E : Env) (fs : FS) (file_path : path)
    (metadata : json) (audio : option handle) : bool * FS :=
  let audio :=
    match audio with
    | Some audio => Valid audio
    | None => validate_flac_file fs file_path
    end in
  match audio with
  | Invalid _ => (false, fs)
  | Valid audio =>
      match (items ← as_dict metadata;
             tags ← new_tags E items;
             save fs (h_path audio) tags) with
      | Ok fs => (true, fs)
      | Raise _ => (false, fs)
      end
  end.

(** ** display_metadata_table *)

(** [metadata.items()] exists only on a dict; the rows themselves are
    built with [str] and [join], which do not raise. *)
Definition display_metadata_table (metadata : json) : res () :=
  _ ← as_dict metadata; Ok ().

(** ** Scanning the library *)

Definition under_folder (folder parent : string) : bool :=
  String.eqb parent folder || startswith parent (folder +:+ "/").

(** [folder.rglob('*' + ext)] *)
Definition rglob (fs : FS) (folder ext : string) : list path :=
  filter (λ p, Is_true (under_folder folder p.1 && endswith p.2 ext))
         (fst <$> map_to_list fs).

(** [[f.name for f in parent.glob('*.flac')]] *)
Definition glob_flac_names (fs : FS) (parent : string) : list string :=
  snd <$> filter (λ p, Is_true (String.eqb p.1 parent && endswith p.2 ".flac"))
                 (fst <$> map_to_list fs).

(** ** The run counters *)

Record counters := {
  processed : nat;
  verified : nat;
  updated : nat;
  skipped : nat;
  failed : nat;
}.

Global Instance counters_eq_dec : EqDecision counters.
Proof. solve_decision. Defined.

Definition zero_counters : counters :=
  {| processed := 0; verified := 0; updated := 0; skipped := 0; failed := 0 |}.

Definition incr_processed (c : counters) : counters :=
  {| processed := S (processed c); verified := verified c; updated := updated c;
     skipped := skipped c; failed := failed c |}.
Definition incr_verified (c : counters) : counters :=
  {| processed := processed c; verified := S (verified c); updated := updated c;
     skipped := skipped c; failed := failed c |}.
Definition incr_updated (c : counters) : counters :=
  {| processed := processed c; verified := verified c; updated := S (updated c);
     skipped := skipped c; failed := failed c |}.
Definition incr_skipped (c : counters) : counters :=
  {| processed := processed c; verified := verified c; updated := updated c;
     skipped := S (skipped c); failed := failed c |}.
Definition incr_failed (c : counters) : counters :=
  {| processed := processed c; verified := verified c; updated := updated c;
     skipped := skipped c; failed := S (failed c) |}.

Definition total (c : counters) : nat :=
  (processed c + verified c + updated c + skipped c + failed c)%nat.

(** ** process_folder_normal *)

(** Validation, with the conversion attempt for an invalid file; shared by
    both modes. *)
Definition validate_or_convert (E : Env) (fs : FS) (file_path : path)
    : option handle * FS :=
  match validate_flac_file fs file_path with
  | Valid audio => (Some audio, fs)
  | Invalid _ => convert_to_flac E fs file_path
  end.

(** One iteration of the loop over [flac_files]. *)
Definition process_file_normal (E : Env) (dry_run : bool) (fs : FS)
    (file_path : path) (c : counters) : res counters * FS :=
  let filename := file_path.2 in
  let '(result, fs) := validate_or_convert E fs file_path in
  match result with
  | None => (Ok (incr_failed c), fs)
  | Some result =>
      let '(has_metadata, _) := has_proper_metadata result in
      if has_metadata then (Ok (incr_skipped c), fs)
      else
        let context_files := glob_flac_names fs file_path.1 in
        let metadata := get_metadata_from_openrouter E filename context_files None in
        if py_truthy metadata then
          match display_metadata_table metadata with
          | Raise e => (Raise e, fs)
          | Ok _ =>
              if negb dry_run then
                let '(success, fs) :=
                  apply_metadata_to_flac E fs file_path metadata (Some result) in
                if success then (Ok (incr_processed c), fs)
                else (Ok (incr_failed c), fs)
              else (Ok (incr_processed c), fs)
          end
        else (Ok (incr_failed c), fs)
  end.

(** The loop: an exception that escapes an iteration ends the run. *)
Fixpoint process_files_normal (E : Env) (dry_run : bool) (flac_files : list path)
    (fs : FS) (c : counters) : res counters * FS :=
  match flac_files with
  | [] => (Ok c, fs)
  | file_path :: rest =>
      match process_file_normal E dry_run fs file_path c with
      | (Ok c, fs) => process_files_normal E dry_run rest fs c
      | (Raise e, fs) => (Raise e, fs)
      end
  end.

Definition scan (fs : FS) (folder_path : string) : list path :=
  rglob fs folder_path ".flac" ++ rglob fs folder_path ".FLAC".

(** Returns [None] when the function returns before the loop (no file
    found), else the counters of the summary. *)
Definition process_folder_normal (E : Env) (fs : FS) (folder_path : string)
    (dry_run : bool) : res (option counters) * FS :=
  match scan fs folder_path with
  | [] => (Ok None, fs)
  | flac_files =>
      match process_files_normal E dry_run flac_files fs zero_counters with
      | (Ok c, fs) => (Ok (Some c), fs)
      | (Raise e, fs) => (Raise e, fs)
      end
  end.

(** ** process_folder_audit *)

Definition comparisons : list (string * string) :=
  [ ("composer", "COMPOSER"); ("work", "ALBUM"); ("movement", "TITLE") ].

(** [old_val]: the tag's value, the first element when it is a list. *)
Definition old_value (current_metadata : snapshot) (old_key : string) : string :=
  match snapshot_get current_metadata old_key with
  | None => ""
  | Some (Single s) => s
  | Some (Multi l) => match l with [] => "" | first :: _ => first end
  end.

(** One comparison: [Some (old_key, old_val, new_val)] when the pair
    differs.  [new_val.lower()] exists only on a string. *)
Definition compare_pair (new_metadata : list (string * json))
    (current_metadata : snapshot) (pair : string * string)
    : res (option (string * string * string)) :=
  let '(new_key, old_key) := pair in
  let new_val := or_empty (dict_get new_metadata new_key) in
  let old_val := old_value current_metadata old_key in
  if py_truthy new_val then
    match new_val with
    | JStr new_val =>
        if negb (String.eqb (py_strip (py_lower new_val))
                            (py_strip (py_lower old_val)))
        then Ok (Some (old_key, old_val, new_val))
        else Ok None
    | _ => Raise AttributeError
    end
  else Ok None.

(** The loop over [comparisons]: the flag and the summary. *)
Definition detect_changes (new_metadata : json) (current_metadata : snapshot)
    : res (bool * list (string * string * string)) :=
  items ← as_dict new_metadata;
  found ← mapM (compare_pair items current_metadata) comparisons;
  let changes_summary := omap id found in
  Ok (bool_decide (changes_summary ≠ []), changes_summary).

Definition process_file_audit (E : Env) (dry_run : bool) (fs : FS)
    (file_path : path) (c : counters) : res counters * FS :=
  let filename := file_path.2 in
  let '(result, fs) := validate_or_convert E fs file_path in
  match result with
  | None => (Ok (incr_failed c), fs)
  | Some result =>
      let current_metadata := get_current_metadata result in
      let context_files := glob_flac_names fs file_path.1 in
      let new_metadata :=
        get_metadata_from_openrouter E filename context_files
          (Some current_metadata) in
      if py_truthy new_metadata then
        match detect_changes new_metadata current_metadata with
        | Raise e => (Raise e, fs)
        | Ok (changes_detected, _) =>
            if changes_detected then
              if negb dry_run then
                if confirm_ask E file_path then
                  let '(success, fs) :=
                    apply_metadata_to_flac E fs file_path new_metadata
                      (Some result) in
                  if success then (Ok (incr_updated c), fs)
                  else (Ok (incr_failed c), fs)
                else (Ok (incr_skipped c), fs)
              else (Ok (incr_updated c), fs)
            else (Ok (incr_verified c), fs)
        end
      else (Ok (incr_failed c), fs)
  end.

Fixpoint process_files_audit (E : Env) (dry_run : bool) (flac_files : list path)
    (fs : FS) (c : counters) : res counters * FS :=
  match flac_files with
  | [] => (Ok c, fs)
  | file_path :: rest =>
      match process_file_audit E dry_run fs file_path c with
      | (Ok c, fs) => process_files_audit E dry_run rest fs c
      | (Raise e, fs) => (Raise e, fs)
      end
  end.

Definition process_folder_audit (E : Env) (fs : FS) (folder_path : string)
    (dry_run : bool) : res (option counters) * FS :=
  match scan fs folder_path with
  | [] => (Ok None, fs)
  | flac_files =>
      match process_files_audit E dry_run flac_files fs zero_counters with
      | (Ok c, fs) => (Ok (Some c), fs)
      | (Raise e, fs) => (Raise e, fs)
      end
  end.

(** ** The magic-byte table, read as a specification *)



(** ** Two readings of "the tag holds a value" *)

(** The first value stored under the tag is not blank. *)
Definition first_value_present (tags : vcomment) (tag : string) : Prop :=
  ∃ first others, vc_get tags tag = first :: others ∧ py_strip first ≠ "".

(** Some value stored under the tag is not blank. *)
Definition holds_value (tags : vcomment) (tag : string) : Prop :=
  ∃ v, v ∈ vc_get tags tag ∧ py_strip v ≠ "".

(** ** The metadata record of the specification *)

(** The shape the service is asked for: every field may be absent (JSON
    null). *)
Record MetadataRecord := {
  composer : option string;
  work : option string;
  movement : option string;
  performers : option (list string);
  orchestra : option string;
  soloists : option (list string);
  date : option string;
  disc : option string;
  track : option string;
}.

Definition opt_str (o : option string) : json :=
  match o with Some s => JStr s | None => JNull end.

Definition opt_list (o : option (list string)) : json :=
  match o with Some l => JArr (JStr <$> l) | None => JNull end.

(** The dict that [json.loads] yields for a reply of that shape. *)
Definition record_to_json (r : MetadataRecord) : json :=
  JObj [ ("composer", opt_str (composer r));
         ("work", opt_str (work r));
         ("movement", opt_str (movement r));
         ("performers", opt_list (performers r));
         ("orchestra", opt_str (orchestra r));
         ("soloists", opt_list (soloists r));
         ("date", opt_str (date r));
         ("disc", opt_str (disc r));
         ("track", opt_str (track r)) ].

(** ** The reconciler's comparison, read as a specification *)

(** [s.lower().strip()]: the value trimmed and case-folded. *)
Definition normalize (s : string) : string := py_strip (py_lower s).

(** The compared pairs: the new field and the tag it is compared with. *)
Definition compared_pairs (r : MetadataRecord) : list (option string * string) :=
  [ (composer r, "COMPOSER"); (work r, "ALBUM"); (movement r, "TITLE") ].

(** The new value is not empty and differs from the old one once both are
    normalized. *)
Definition pair_differs (old : snapshot) (pair : option string * string) : Prop :=
  default "" pair.1 ≠ ""
  ∧ normalize (default "" pair.1) ≠ normalize (old_value old pair.2).

(** ** The tag writer's field mapping, read as a specification *)

(** A field is present: not null and not empty. *)
Definition is_set (o : option string) : bool :=
  match o with Some s => negb (is_empty s) | None => false end.

Definition is_set_list (o : option (list string)) : bool :=
  match o with Some (_ :: _) => true | _ => false end.

Definition write_if (cond : bool) (key : string) (values : list string)
    (tags : vcomment) : vcomment :=
  if cond then vc_set tags key values else tags.

(** Follows the specification of the tag writer: starting from no tag, set
    COMPOSER, ALBUM and WORK, TITLE (movement, else work), ARTIST and
    ALBUMARTIST (performers joined with ", "), ORCHESTRA and ENSEMBLE,
    PERFORMER (one value per soloist), DATE, DISCNUMBER, TRACKNUMBER, each
    only when its field is present. *)
Definition record_tags (r : MetadataRecord) : vcomment :=
  let tags := [] in
  let tags := write_if (is_set (composer r)) "COMPOSER" [default "" (composer r)] tags in
  let tags := write_if (is_set (work r)) "ALBUM" [default "" (work r)] tags in
  let tags := write_if (is_set (work r)) "WORK" [default "" (work r)] tags in
  let tags :=
    if is_set (movement r)
    then vc_set tags "TITLE" [default "" (movement r)]
    else write_if (is_set (work r)) "TITLE" [default "" (work r)] tags in
  let joined := py_join ", " (default [] (performers r)) in
  let tags := write_if (is_set_list (performers r)) "ARTIST" [joined] tags in
  let tags := write_if (is_set_list (performers r)) "ALBUMARTIST" [joined] tags in
  let tags := write_if (is_set (orchestra r)) "ORCHESTRA" [default "" (orchestra r)] tags in
  let tags := write_if (is_set (orchestra r)) "ENSEMBLE" [default "" (orchestra r)] tags in
  let tags := write_if (is_set_list (soloists r)) "PERFORMER" (default [] (soloists r)) tags in
  let tags := write_if (is_set (date r)) "DATE" [default "" (date r)] tags in
  let tags := write_if (is_set (disc r)) "DISCNUMBER" [default "" (disc r)] tags in
  let tags := write_if (is_set (track r)) "TRACKNUMBER" [default "" (track r)] tags in
  tags.

(** A record with every field present. *)
Definition all_fields_set (r : MetadataRecord) : Prop :=
  is_set (composer r) ∧ is_set (work r) ∧ is_set (movement r)
  ∧ is_set_list (performers r) ∧ is_set (orchestra r)
  ∧ is_set_list (soloists r) ∧ is_set (date r) ∧ is_set (disc r)
  ∧ is_set (track r).

(** What the snapshot shows for a tag with the given values. *)
Definition shown (values : list string) : tagvalue :=
  match values with
  | [v] => Single v
  | _ => Multi values
  end.

(** The record with its movement removed. *)
Definition without_movement (r : MetadataRecord) : MetadataRecord :=
  {| composer := composer r; work := work r; movement := None;
     performers := performers r; orchestra := orchestra r;
     soloists := soloists r; date := date r; disc := disc r;
     track := track r |}.

(** ** Backup names, read as a specification *)

(** The k-th name tried for the backup of a file: the plain name first, then
    the names with the numeric suffix 1, 2, ... before the extension. *)
Definition backup_candidate (E : Env) (file_path : path) (actual_format : format)
    (k : nat) : path :=
  match k with
  | O => (backup_folder E, backup_name file_path actual_format)
  | S _ => (backup_folder E, numbered_backup_name file_path actual_format k)
  end.

(** Two file systems agree everywhere except at one path. *)
Definition same_except (p : path) (fs fs' : FS) : Prop :=
  ∀ q, q ≠ p → fs' !! q = fs !! q.

(** The state after the swap: the original sits under the first free backup
    name, the source path holds the converted file, and no other file but
    the temporary output differs. *)
Definition swapped (E : Env) (fs fs' : FS) (file_path : path) : Prop :=
  ∃ original converted k,
    let backup_path :=
      backup_candidate E file_path (detect_actual_format fs file_path) k in
    fs !! file_path = Some original
    ∧ fs !! backup_path = None
    ∧ (∀ i, (i < k)%nat →
         is_Some (fs !! backup_candidate E file_path
                           (detect_actual_format fs file_path) i))
    ∧ fs' !! backup_path = Some original
    ∧ fs' !! file_path = Some converted
    ∧ (∀ p, p ≠ file_path → p ≠ backup_path → p ≠ temp_output file_path →
         fs' !! p = fs !! p).

(** ** Replies of the expected shape *)

(** Every reply that parses is null or has the shape of a metadata
    record. *)
Definition record_replies (E : Env) : Prop :=
  ∀ rq metadata,
    parse_reply E rq = Ok metadata →
    metadata = JNull ∨ ∃ r, metadata = record_to_json r.

(** ** Fenced replies, read as a specification *)

Fixpoint all_space (s : string) : bool :=
  match s with
  | EmptyString => true
  | String c r => py_isspace c && all_space r
  end.

Fixpoint no_backtick (s : string) : bool :=
  match s with
  | EmptyString => true
  | String c r => negb (is_backtick c) && no_backtick r
  end.

(** The text carries no white space at either end. *)
Definition stripped (s : string) : Prop := py_strip s = s.

(** ** show_menu: the folder path shown in the menu *)

(** [folder_path if len(folder_path) <= 50 else "..." + folder_path[-47:]] *)
Definition display_path (folder_path : string) : string :=
  if (String.length folder_path <=? 50)%nat then folder_path
  else "..." +:+ str_drop (String.length folder_path - 47) folder_path.

(** ** show_statistics *)

(** The tallies of the statistics scan. *)
Record stats := {
  with_metadata : nat;
  without_metadata : nat;
  missing_fields_count : gmap string nat;
  composers : gset string;
  total_size : nat;
}.

Definition zero_stats : stats :=
  {| with_metadata := 0; without_metadata := 0; missing_fields_count := ∅;
     composers := ∅; total_size := 0 |}.

(** [missing_fields_count[field] = missing_fields_count.get(field, 0) + 1] *)
Definition count_missing (counts : gmap string nat) (field : string)
    : gmap string nat :=
  <[field := S (default 0%nat (counts !! field))]> counts.

(** [if 'COMPOSER' in result and result['COMPOSER']:
       composers.add(result['COMPOSER'][0])] *)
Definition add_composer (tags : vcomment) (known : gset string) : gset string :=
  if vc_contains tags "COMPOSER" then
    match vc_get tags "COMPOSER" with
    | [] => known
    | first :: _ => {[first]} ∪ known
    end
  else known.

(** One iteration of the loop over [flac_files].  [st_size] gives the size
    in bytes of a file's content ([file_path.stat().st_size]); the file
    exists, since it has just been validated. *)
Definition statistics_step (st_size : content → nat) (fs : FS) (s : stats)
    (file_path : path) : stats :=
  match validate_flac_file fs file_path with
  | Valid result =>
      let '(has_meta, missing) := has_proper_metadata result in
      {| with_metadata :=
           if has_meta then S (with_metadata s) else with_metadata s;
         without_metadata :=
           if has_meta then without_metadata s else S (without_metadata s);
         missing_fields_count :=
           if has_meta then missing_fields_count s
           else foldl count_missing (missing_fields_count s) missing;
         composers := add_composer (h_tags result) (composers s);
         total_size := (total_size s + from_option st_size 0%nat (fs !! file_path))%nat |}
  | Invalid _ =>
      {| with_metadata := with_metadata s;
         without_metadata := S (without_metadata s);
         missing_fields_count := missing_fields_count s;
         composers := composers s;
         total_size := total_size s |}
  end.

(** The analysis loop. *)
Definition statistics (st_size : content → nat) (fs : FS)
    (flac_files : list path) : stats :=
  foldl (statistics_step st_size fs) zero_stats flac_files.

(** Returns [None] when the function returns before the loop (no file
    found), else the tallies that are displayed. *)
Definition show_statistics (st_size : content → nat) (fs : FS)
    (folder_path : string) : option stats :=
  match scan fs folder_path with
  | [] => None
  | flac_files => Some (statistics st_size fs flac_files)
  end.

(** ** Further readings used in the properties *)

(** The value is not empty once white space is stripped. *)
Definition nonblank (s : string) : bool := negb (is_empty (py_strip s)).

(** A file of the library is a valid FLAC file with all required fields. *)
Definition complete_file (fs : FS) (file_path : path) : Prop :=
  ∃ tags rest,
    fs !! file_path = Some (FlacFile tags rest)
    ∧ missing_fields tags = [].

Definition is_complete (fs : FS) (file_path : path) : bool :=
  match validate_flac_file fs file_path with
  | Valid audio => (has_proper_metadata audio).1
  | Invalid _ => false
  end.

(** A compared field the reconciler can handle: empty, null, or a string. *)
Definition comparable (v : json) : bool :=
  negb (py_truthy v) || match v with JStr _ => true | _ => false end.

(** No field of the record is present. *)
Definition no_field_set (r : MetadataRecord) : Prop :=
  is_set (composer r) = false ∧ is_set (work r) = false
  ∧ is_set (movement r) = false ∧ is_set_list (performers r) = false
  ∧ is_set (orchestra r) = false ∧ is_set_list (soloists r) = false
  ∧ is_set (date r) = false ∧ is_set (disc r) = false
  ∧ is_set (track r) = false.

(** ** Readings of the statistics tallies *)

(** The file validates and [field] is among its missing fields. *)
Definition lacks_field (fs : FS) (field : string) (file_path : path) : bool :=
  match validate_flac_file fs file_path with
  | Valid audio => bool_decide (field ∈ missing_fields (h_tags audio))
  | Invalid _ => false
  end.

(** The first COMPOSER value of a file that validates. *)
Definition first_composer (fs : FS) (file_path : path) : option string :=
  match validate_flac_file fs file_path with
  | Valid audio => head (vc_get (h_tags audio) "COMPOSER")
  | Invalid _ => None
  end.

(** ** Values the tag writer cannot store *)

(** The comment block holds, under [key], a value that is not a string. *)
Definition holds_non_string (key : string) (tags : list (string * json)) : Prop :=
  ∃ v, (key, v) ∈ tags ∧ as_str v = None.

(** The tag a reply field is stored under as it is. *)
Definition stored_as_is : list (string * string) :=
  [ ("composer", "COMPOSER"); ("work", "ALBUM"); ("movement", "TITLE");
    ("orchestra", "ORCHESTRA"); ("soloists", "PERFORMER") ].

(** ** What tagging may change *)

(** From [fs] to [fs'] nothing happened but the rewriting of the tags of
    FLAC files: every path holds what it held, or holds a FLAC file with the
    audio data it had and other tags. *)
Definition retagged (fs fs' : FS) : Prop :=
  ∀ p, fs' !! p = fs !! p
       ∨ ∃ tags tags' rest,
           fs !! p = Some (FlacFile tags rest)
           ∧ fs' !! p = Some (FlacFile tags' rest).

(* ===================================================================== *)
(** * Part II: example worlds                                             *)
(* ===================================================================== *)

(** A file whose TITLE has two values, the first one empty. *)
Definition audio_second_title : handle :=
  {| h_path := ("/music", "partita.flac");
     h_tags := [ ("COMPOSER", "Bach, Johann Sebastian");
                 ("ALBUM", "Partita No. 2, BWV 1004");
                 ("TITLE", "");
                 ("TITLE", "Allemande");
                 ("ARTIST", "Milstein, Nathan") ] |}.

(** The reconciler examples of the specification. *)
Definition record_of_composer (name : string) : MetadataRecord :=
  {| composer := Some name; work := None; movement := None;
     performers := None; orchestra := None; soloists := None;
     date := None; disc := None; track := None |}.

(** An environment without collaborators: no ffmpeg, a service that is
    down, a JSON parser that rejects everything, a user who declines. *)
Definition offline_env : Env :=
  {| home := "/home/user";
     which_ffmpeg := false;
     ffmpeg := λ _, FfmpegRaises OSError;
     chat_completion := λ _, Raise APIError;
     json_loads := λ _, Raise JSONDecodeError;
     py_repr := λ _, "";
     confirm_ask := λ _, false |}.

Definition partita_path : path := ("/music/bach", "partita.flac").

(** A library with one valid FLAC file that carries no tag. *)
Definition untagged_library : FS :=
  {[ partita_path := FlacFile [] [] ]}.

(** A record with every field present and two soloists. *)
Definition full_record : MetadataRecord :=
  {| composer := Some "Bach, Johann Sebastian";
     work := Some "Concerto for Two Violins, BWV 1043";
     movement := Some "II. Largo ma non tanto";
     performers := Some ["Menuhin, Yehudi"; "Oistrakh, David"];
     orchestra := Some "RTF Chamber Orchestra";
     soloists := Some ["Menuhin, Yehudi"; "Oistrakh, David"];
     date := Some "1958";
     disc := Some "1";
     track := Some "2" |}.

(** The same record with a single soloist. *)
Definition solo_record : MetadataRecord :=
  {| composer := Some "Bach, Johann Sebastian";
     work := Some "Partita No. 2, BWV 1004";
     movement := Some "V. Ciaccona";
     performers := Some ["Milstein, Nathan"];
     orchestra := Some "none";
     soloists := Some ["Milstein, Nathan"];
     date := Some "1973";
     disc := Some "1";
     track := Some "5" |}.

Definition song_path : path := ("/music/misc", "song.flac").

(** The first bytes of an MP3 file with an ID3v2 tag. *)
Definition mp3_bytes : list byte :=
  sig_ID3 ++ [x04; x00; x00; x00; x00; x00; x17; x76; x54].

(** A library whose only file is an MP3 carrying the extension .flac. *)
Definition mislabeled_library : FS :=
  {[ song_path := Raw mp3_bytes ]}.

(** The same library after an earlier run left a backup of that name. *)
Definition library_with_old_backup : FS :=
  <[ ("/home/user/Desktop/music_backups", "song_original_mp3.flac") := Raw [x00] ]>
    mislabeled_library.

(** ffmpeg is installed and transcodes to a FLAC file without tags. *)
Definition transcoding_env : Env :=
  {| home := "/home/user";
     which_ffmpeg := true;
     ffmpeg := λ input,
       match input with
       | Some _ => FfmpegExit 0 (Some (FlacFile [] [x00]))
       | None => FfmpegExit 1 None
       end;
     chat_completion := λ _, Raise APIError;
     json_loads := λ _, Raise JSONDecodeError;
     py_repr := λ _, "";
     confirm_ask := λ _, false |}.


(** [json.loads] on the texts of a table; it agrees with the parser on the
    texts listed and is used on no other text. *)
Definition loads_from (table : list (string * json)) (text : string) : res json :=
  match find (λ kv, String.eqb kv.1 text) table with
  | Some kv => Ok kv.2
  | None => Raise JSONDecodeError
  end.

(** The service answers every request with the JSON array [[1]]. *)
Definition array_reply_env : Env :=
  {| home := "/home/user";
     which_ffmpeg := false;
     ffmpeg := λ _, FfmpegRaises OSError;
     chat_completion := λ _, Ok (Some "[1]");
     json_loads := loads_from [("[1]", JArr [JNum 1])];
     py_repr := λ _, "[1]";
     confirm_ask := λ _, true |}.

(** A library whose only file carries a title and a genre. *)
Definition tagged_library : FS :=
  {[ partita_path :=
       FlacFile [("TITLE", "Old title"); ("GENRE", "Baroque")] [x01; x02] ]}.

(** The record of a reply in which every field is null. *)
Definition null_record : MetadataRecord :=
  {| composer := None; work := None; movement := None; performers := None;
     orchestra := None; soloists := None; date := None; disc := None;
     track := None |}.

(** A library whose only file is valid and has all required fields. *)
Definition complete_library : FS :=
  {[ partita_path :=
       FlacFile [ ("COMPOSER", "Bach, Johann Sebastian");
                  ("ALBUM", "Partita No. 2, BWV 1004");
                  ("TITLE", "V. Ciaccona");
                  ("ARTIST", "Milstein, Nathan") ] [] ]}.

(** A string between double quotes. *)
Definition quoted (s : string) : string :=
  String "034" (s +:+ String "034" "").

(** The record of a typical reply: composer, work and performers known, the
    other fields null. *)
Definition reply_record : MetadataRecord :=
  {| composer := Some "Bach, Johann Sebastian";
     work := Some "Partita No. 2, BWV 1004";
     movement := None;
     performers := Some ["Milstein, Nathan"];
     orchestra := None; soloists := None; date := None; disc := None;
     track := None |}.

(** The JSON text of that reply. *)
Definition reply_text : string :=
  "{" +:+ quoted "composer" +:+ ": " +:+ quoted "Bach, Johann Sebastian"
  +:+ ", " +:+ quoted "work" +:+ ": " +:+ quoted "Partita No. 2, BWV 1004"
  +:+ ", " +:+ quoted "movement" +:+ ": null"
  +:+ ", " +:+ quoted "performers" +:+ ": [" +:+ quoted "Milstein, Nathan" +:+ "]"
  +:+ ", " +:+ quoted "orchestra" +:+ ": null"
  +:+ ", " +:+ quoted "soloists" +:+ ": null"
  +:+ ", " +:+ quoted "date" +:+ ": null"
  +:+ ", " +:+ quoted "disc" +:+ ": null"
  +:+ ", " +:+ quoted "track" +:+ ": null}".

(** The service answers every request with that text; the user approves
    every change. *)
Definition record_reply_env : Env :=
  {| home := "/home/user";
     which_ffmpeg := false;
     ffmpeg := λ _, FfmpegRaises OSError;
     chat_completion := λ _, Ok (Some reply_text);
     json_loads := loads_from [(reply_text, record_to_json reply_record)];
     py_repr := λ _, "";
     confirm_ask := λ _, true |}.

(* ===================================================================== *)
(** * Part III: properties                                                *)
(* ===================================================================== *)

(** ** Format sniffer *)



Lemma flac_file_header (tags : vcomment) (rest : list byte) (n : nat) :
  (4 ≤ n)%nat → sniff_header (read_bytes (FlacFile tags rest) n) = flac.
Proof.
  intros Hn. unfold read_bytes, sniff_header.
  rewrite take_take. replace (4 `min` n)%nat with 4%nat by lia. done.
Qed.











(** ** Required-metadata check *)

Lemma is_empty_true (s : string) : is_empty s = true ↔ s = "".
Proof. by destruct s. Qed.

Lemma is_empty_false (s : string) : is_empty s = false ↔ s ≠ "".
Proof. by destruct s. Qed.

Lemma vc_contains_get {V} (tags : list (string * V)) (tag : string) :
  vc_contains tags tag = true ↔ vc_get tags tag ≠ [].
Proof.
  unfold vc_contains, vc_get. induction tags as [|kv tags IH]; simpl.
  - done.
  - rewrite filter_cons. destruct (key_match tag kv.1) eqn:Hk; simpl.
    + done.
    + apply IH.
Qed.

Lemma tag_has_value_spec (tags : vcomment) (tag : string) :
  tag_has_value tags tag = true ↔ first_value_present tags tag.
Proof.
  unfold tag_has_value, first_value_present.
  rewrite andb_true_iff, vc_contains_get.
  destruct (vc_get tags tag) as [|first others].
  - split; [by intros [_ ?]|by intros (?&?&?&?)].
  - rewrite negb_true_iff, is_empty_false. split.
    + intros [_ ?]. by exists first, others.
    + intros (?&?&[= <- <-]&?). done.
Qed.

Lemma has_value_spec (tags : vcomment) (tag_options : list string) :
  has_value tags tag_options = true
  ↔ ∃ tag, tag ∈ tag_options ∧ first_value_present tags tag.
Proof.
  unfold has_value. rewrite existsb_exists.
  setoid_rewrite <- list_elem_of_In. by setoid_rewrite tag_has_value_spec.
Qed.

Lemma has_proper_metadata_missing (audio : handle) :
  (has_proper_metadata audio).2 = missing_fields (h_tags audio).
Proof. unfold has_proper_metadata. by destruct (missing_fields _). Qed.

Lemma has_proper_metadata_flag (audio : handle) :
  (has_proper_metadata audio).1 = true ↔ missing_fields (h_tags audio) = [].
Proof. unfold has_proper_metadata. by destruct (missing_fields _). Qed.

(** Membership in the list of missing fields, field by field. *)
Lemma missing_fields_spec (tags : vcomment) (field : string)
    (tag_options : list string) :
  (field, tag_options) ∈ required_fields →
  field ∈ missing_fields tags ↔ has_value tags tag_options = false.
Proof.
  intros Hin. unfold missing_fields.
  rewrite list_elem_of_fmap. split.
  - intros ([field' options'] & -> & Hf). apply list_elem_of_filter in Hf as [Hno Hin'].
    simpl in *.
    assert (options' = tag_options) as ->.
    { unfold required_fields in *.
      repeat (apply elem_of_cons in Hin as [Hin|Hin]; [simplify_eq|]);
      try (by apply elem_of_nil in Hin);
      repeat (apply elem_of_cons in Hin' as [Hin'|Hin']; [by simplify_eq|]);
      by apply elem_of_nil in Hin'. }
    by destruct (has_value tags tag_options).
  - intros Hno. exists (field, tag_options). split; [done|].
    apply list_elem_of_filter. split; [|done]. simpl. rewrite Hno. by intros [].
Qed.

(** C7 (amended): the check reports a semantic field as present exactly when
    the first value stored under one of its alias tags is neither empty nor
    white space, and it returns the semantic names of the fields that are
    missing; the flag is true exactly when that list is empty. *)
Theorem C7_required_fields_by_first_value (audio : handle) :
  (∀ field tag_options, (field, tag_options) ∈ required_fields →
     field ∉ (has_proper_metadata audio).2
     ↔ ∃ tag, tag ∈ tag_options ∧ first_value_present (h_tags audio) tag)
  ∧ (∀ field, field ∈ (has_proper_metadata audio).2 →
       field ∈ ["composer"; "work"; "title"; "artist"])
  ∧ ((has_proper_metadata audio).1 = true ↔ (has_proper_metadata audio).2 = []).
Proof.
  rewrite has_proper_metadata_missing. split_and!.
  - intros field tag_options Hin.
    rewrite (missing_fields_spec _ _ _ Hin), <- has_value_spec.
    by destruct (has_value _ _).
  - intros field. unfold missing_fields. rewrite list_elem_of_fmap.
    intros (f & -> & Hf). apply list_elem_of_filter in Hf as [_ Hf].
    change ["composer"; "work"; "title"; "artist"] with (fst <$> required_fields).
    by apply list_elem_of_fmap_2.
  - apply has_proper_metadata_flag.
Qed.

(** C7 as stated fails: TITLE holds the value "Allemande", yet the title is
    reported missing, because only the first value of a tag is read. *)
Lemma C7_counterexample :
  ¬ (∀ (audio : handle) field tag_options,
       (field, tag_options) ∈ required_fields →
       field ∉ (has_proper_metadata audio).2
       ↔ ∃ tag, tag ∈ tag_options ∧ holds_value (h_tags audio) tag).
Proof.
  intros Hclaim.
  destruct (Hclaim audio_second_title "title" ["TITLE"]) as [_ Hpresent].
  { unfold required_fields. do 2 apply list_elem_of_further. apply list_elem_of_here. }
  apply Hpresent.
  - exists "TITLE". split; [apply list_elem_of_here|].
    exists "Allemande". split; [|done].
    vm_compute. apply list_elem_of_further, list_elem_of_here.
  - vm_compute. apply list_elem_of_here.
Qed.

(** ** Reconciler *)

Global Instance pair_differs_dec old pair : Decision (pair_differs old pair).
Proof. unfold pair_differs. apply _. Defined.

Lemma eqb_false_neq (s1 s2 : string) : String.eqb s1 s2 = false ↔ s1 ≠ s2.
Proof. apply String.eqb_neq. Qed.

(** One comparison on a string-or-null field. *)
Lemma compare_pair_record (items : list (string * json)) (old : snapshot)
    (new_key old_key : string) (new : option string) :
  dict_get items new_key = opt_str new →
  compare_pair items old (new_key, old_key) =
  Ok (if decide (pair_differs old (new, old_key))
      then Some (old_key, old_value old old_key, default "" new) else None).
Proof.
  intros Hget. unfold compare_pair, pair_differs, normalize. rewrite Hget.
  destruct new as [[|c s]|]; simpl; [done| |done].
  destruct (String.eqb _ _) eqn:Heq; simpl.
  - apply String.eqb_eq in Heq. rewrite decide_False; [done|]. by intros [_ ?].
  - apply String.eqb_neq in Heq. by rewrite decide_True.
Qed.

Local Arguments compare_pair : simpl never.

Lemma detect_changes_record (r : MetadataRecord) (old : snapshot) :
  ∃ summary,
    detect_changes (record_to_json r) old
    = Ok (bool_decide (Exists (pair_differs old) (compared_pairs r)), summary).
Proof.
  unfold detect_changes, record_to_json, comparisons, compared_pairs. simpl.
  rewrite (compare_pair_record _ old "composer" "COMPOSER" (composer r)) by done.
  rewrite (compare_pair_record _ old "work" "ALBUM" (work r)) by done.
  rewrite (compare_pair_record _ old "movement" "TITLE" (movement r)) by done.
  simpl. eexists. do 2 f_equal.
  apply bool_decide_ext. rewrite !Exists_cons, Exists_nil.
  repeat case_decide; simpl; naive_solver.
Qed.

(** C5: for every metadata record and tag snapshot the reconciler returns a
    changed flag (it does not raise), and the flag is true exactly when one of
    the pairs composer/COMPOSER, work/ALBUM, movement/TITLE has a non-empty
    new value that differs from the old value (its first element when it is a
    list) after trimming and case folding; it is false exactly when every
    pair has an empty new value or equal normalized values.  Old COMPOSER
    "bach, j.s." against new "Bach, J.S." gives false; old "Bach" against new
    "Bach, Johann Sebastian" gives true. *)
Theorem C5_changed_flag :
  (∀ (r : MetadataRecord) (old : snapshot),
     ∃ changed summary,
       detect_changes (record_to_json r) old = Ok (changed, summary)
       ∧ (changed = true ↔ ∃ pair, pair ∈ compared_pairs r ∧ pair_differs old pair)
       ∧ (changed = false ↔
          ∀ pair, pair ∈ compared_pairs r →
            default "" pair.1 = ""
            ∨ normalize (default "" pair.1) = normalize (old_value old pair.2)))
  ∧ (fst <$> detect_changes (record_to_json (record_of_composer "Bach, J.S."))
                            [("COMPOSER", Single "bach, j.s.")]) = Ok false
  ∧ (fst <$> detect_changes (record_to_json (record_of_composer "Bach, Johann Sebastian"))
                            [("COMPOSER", Single "Bach")]) = Ok true.
Proof.
  split_and!; [|done..].
  intros r old. destruct (detect_changes_record r old) as [summary Heq].
  eexists _, summary. split; [exact Heq|]. split.
  - rewrite bool_decide_eq_true, Exists_exists. naive_solver.
  - rewrite bool_decide_eq_false, <- Forall_Exists_neg, Forall_forall.
    apply forall_proper; intros pair. apply forall_proper; intros _.
    unfold pair_differs.
    destruct (decide (default "" pair.1 = "")),
             (decide (normalize (default "" pair.1) = normalize (old_value old pair.2)));
      naive_solver.
Qed.

(** ** Tag dictionary algebra *)

Lemma key_match_refl (k : string) : key_match k k = true.
Proof. unfold key_match. apply String.eqb_refl. Qed.

Lemma key_match_trans_false (k k' x : string) :
  key_match k' k = false → key_match k' x = true → key_match k x = false.
Proof.
  unfold key_match. intros Hne Hx.
  apply String.eqb_eq in Hx. apply String.eqb_neq in Hne. apply String.eqb_neq.
  congruence.
Qed.

Lemma vc_get_nil {V} (tag : string) : vc_get (@nil (string * V)) tag = [].
Proof. done. Qed.

Lemma vc_get_app {V} (t1 t2 : list (string * V)) (tag : string) :
  vc_get (t1 ++ t2) tag = vc_get t1 tag ++ vc_get t2 tag.
Proof. unfold vc_get. by rewrite filter_app, fmap_app. Qed.

Lemma vc_get_entries_eq {V} (k : string) (values : list V) :
  vc_get ((λ v, (k, v)) <$> values) k = values.
Proof.
  unfold vc_get. induction values as [|v values IH]; [done|].
  rewrite fmap_cons, filter_cons. simpl. rewrite key_match_refl. simpl.
  f_equal. apply IH.
Qed.

Lemma vc_get_entries_ne {V} (k k' : string) (values : list V) :
  key_match k' k = false → vc_get ((λ v, (k, v)) <$> values) k' = [].
Proof.
  intros Hne. unfold vc_get. induction values as [|v values IH]; [done|].
  rewrite fmap_cons, filter_cons. simpl. rewrite Hne. simpl. apply IH.
Qed.

Lemma vc_get_removed_eq {V} (tags : list (string * V)) (k : string) :
  vc_get (filter (λ kv, ¬ Is_true (key_match k kv.1)) tags) k = [].
Proof.
  unfold vc_get. induction tags as [|kv tags IH]; [done|].
  rewrite filter_cons. destruct (key_match k kv.1) eqn:Hk; simpl.
  - apply IH.
  - rewrite filter_cons. rewrite Hk. simpl. apply IH.
Qed.

Lemma vc_get_removed_ne {V} (tags : list (string * V)) (k k' : string) :
  key_match k' k = false →
  vc_get (filter (λ kv, ¬ Is_true (key_match k kv.1)) tags) k' = vc_get tags k'.
Proof.
  intros Hne. unfold vc_get. induction tags as [|kv tags IH]; [done|].
  rewrite !filter_cons. destruct (key_match k kv.1) eqn:Hk; simpl.
  - destruct (key_match k' kv.1) eqn:Hk'; simpl; [|apply IH].
    by rewrite (key_match_trans_false _ _ _ Hne Hk') in Hk.
  - rewrite filter_cons. destruct (key_match k' kv.1); simpl; [f_equal|]; apply IH.
Qed.

(** Reading the key that was just set gives the values that were set. *)
Lemma vc_get_set_eq {V} (tags : list (string * V)) (k : string) (values : list V) :
  vc_get (vc_set tags k values) k = values.
Proof.
  unfold vc_set. by rewrite vc_get_app, vc_get_removed_eq, vc_get_entries_eq.
Qed.

(** Setting a key leaves the other keys alone. *)
Lemma vc_get_set_ne {V} (tags : list (string * V)) (k k' : string) (values : list V) :
  key_match k' k = false →
  vc_get (vc_set tags k values) k' = vc_get tags k'.
Proof.
  intros Hne. unfold vc_set.
  rewrite vc_get_app, vc_get_removed_ne, vc_get_entries_ne by done.
  apply app_nil_r.
Qed.

(** ** save: the values mutagen accepts *)

Definition jsonify (tags : vcomment) : list (string * json) :=
  (λ kv, (kv.1, JStr kv.2)) <$> tags.

Lemma checked_jsonify (tags : vcomment) :
  mapM checked_value (jsonify tags) = Some tags.
Proof.
  induction tags as [|[k v] tags IH]; [done|].
  simpl. by rewrite IH.
Qed.

Lemma vc_get_jsonify (tags : vcomment) (tag : string) :
  vc_get (jsonify tags) tag = JStr <$> vc_get tags tag.
Proof.
  unfold vc_get, jsonify. induction tags as [|[k v] tags IH]; [done|].
  rewrite fmap_cons, !filter_cons. simpl.
  destruct (key_match tag k); simpl; [f_equal|]; apply IH.
Qed.

(** A tag list whose values are all strings is the image of a comment
    list. *)
Lemma all_strings_jsonify (tags : list (string * json)) :
  Forall (λ kv, ∃ s, kv.2 = JStr s) tags → ∃ tags', tags = jsonify tags'.
Proof.
  induction 1 as [|[k v] tags [s Hs] _ [tags' ->]].
  - by exists [].
  - simpl in Hs. subst. by exists ((k, s) :: tags').
Qed.

Lemma vc_set_all_strings (tags : list (string * json)) (k : string)
    (values : list string) :
  Forall (λ kv, ∃ s, kv.2 = JStr s) tags →
  Forall (λ kv, ∃ s, kv.2 = JStr s) (vc_set tags k (JStr <$> values)).
Proof.
  intros Htags. unfold vc_set. apply Forall_app. split.
  - apply Forall_forall. intros kv [_ Hin]%list_elem_of_filter.
    by eapply Forall_forall in Htags.
  - apply Forall_fmap, Forall_fmap, Forall_true. intros s. by exists s.
Qed.

(** ** Tag writer *)

Lemma jsonify_vc_set (tags : vcomment) (k : string) (values : list string) :
  jsonify (vc_set tags k values) = vc_set (jsonify tags) k (JStr <$> values).
Proof.
  unfold vc_set, jsonify. rewrite fmap_app. f_equal.
  - induction tags as [|[k' v] tags IH]; [done|].
    rewrite fmap_cons, !filter_cons. simpl.
    destruct (key_match k k'); simpl; [|f_equal]; apply IH.
  - by rewrite <- !list_fmap_compose.
Qed.

Lemma jsonify_write_if (cond : bool) (tags : vcomment) (k : string)
    (values : list string) :
  jsonify (write_if cond k values tags)
  = set_if cond k (JStr <$> values) (jsonify tags).
Proof. destruct cond; [apply jsonify_vc_set|done]. Qed.

Lemma truthy_opt_str (o : option string) : py_truthy (opt_str o) = is_set o.
Proof. by destruct o. Qed.

Lemma truthy_opt_list (o : option (list string)) :
  py_truthy (opt_list o) = is_set_list o.
Proof. by destruct o as [[|??]|]. Qed.

Lemma to_values_opt_str (o : option string) :
  is_set o = true → to_values (opt_str o) = JStr <$> [default "" o].
Proof. by destruct o. Qed.

Lemma set_if_opt_str (o : option string) (k : string) (tags : list (string * json)) :
  set_if (py_truthy (opt_str o)) k (to_values (opt_str o)) tags
  = set_if (is_set o) k (JStr <$> [default "" o]) tags.
Proof. by destruct o as [[|??]|]. Qed.

Lemma set_if_py_str (E : Env) (o : option string) (k : string)
    (tags : list (string * json)) :
  set_if (py_truthy (opt_str o)) k [JStr (py_str E (opt_str o))] tags
  = set_if (is_set o) k (JStr <$> [default "" o]) tags.
Proof. by destruct o as [[|??]|]. Qed.

Lemma set_if_opt_list (o : option (list string)) (k : string)
    (tags : list (string * json)) :
  set_if (is_set_list o) k (to_values (opt_list o)) tags
  = set_if (is_set_list o) k (JStr <$> default [] o) tags.
Proof. by destruct o as [[|??]|]. Qed.

Lemma mapM_as_str (l : list string) : mapM as_str (JStr <$> l) = Some l.
Proof.
  induction l as [|s l IH]; [done|].
  rewrite fmap_cons. cbn [mapM]. simpl as_str. cbn [mbind option_bind].
  by rewrite IH.
Qed.

Lemma join_value_list (sep : string) (l : list string) :
  join_value sep (JArr (JStr <$> l)) = Ok (py_join sep l).
Proof. unfold join_value. by rewrite mapM_as_str. Qed.

Local Arguments vc_set : simpl never.
Local Arguments py_join : simpl never.

(** The statements of the writer build the comment block of the
    specification, for every record. *)
Lemma new_tags_record (E : Env) (r : MetadataRecord) (items : list (string * json)) :
  record_to_json r = JObj items →
  new_tags E items = Ok (jsonify (record_tags r)).
Proof.
  intros [= <-]. unfold new_tags, record_tags.
  cbn [dict_get find fst snd String.eqb Ascii.eqb Bool.eqb].
  rewrite !truthy_opt_list.
  destruct (is_set_list (performers r)) eqn:Hp.
  - destruct (performers r) as [ps|]; [|done].
    change (opt_list (Some ps)) with (JArr (JStr <$> ps)).
    rewrite join_value_list. cbn [mbind res_bind default from_option id].
    rewrite !set_if_opt_str, !set_if_py_str, !set_if_opt_list, !truthy_opt_str.
    destruct (is_set (movement r)) eqn:Hm.
    + rewrite (to_values_opt_str _ Hm).
      by rewrite ?jsonify_write_if, ?jsonify_vc_set, ?jsonify_write_if.
    + by rewrite ?jsonify_write_if, ?jsonify_vc_set, ?jsonify_write_if.
  - cbn [mbind res_bind].
    rewrite !set_if_opt_str, !set_if_py_str, !set_if_opt_list, !truthy_opt_str.
    destruct (is_set (movement r)) eqn:Hm.
    + rewrite (to_values_opt_str _ Hm).
      by rewrite ?jsonify_write_if, ?jsonify_vc_set, ?jsonify_write_if.
    + by rewrite ?jsonify_write_if.
Qed.

Lemma validate_flac (fs : FS) (file_path : path) (tags : vcomment)
    (rest : list byte) :
  fs !! file_path = Some (FlacFile tags rest) →
  validate_flac_file fs file_path
  = Valid {| h_path := file_path; h_tags := tags |}.
Proof. intros Hfile. unfold validate_flac_file. by rewrite Hfile. Qed.

Lemma validate_valid_inv (fs : FS) (file_path : path) (audio : handle) :
  validate_flac_file fs file_path = Valid audio →
  h_path audio = file_path
  ∧ ∃ rest, fs !! file_path = Some (FlacFile (h_tags audio) rest).
Proof.
  unfold validate_flac_file. destruct (fs !! file_path) as [[bytes|tags rest]|];
    simpl; try case_bool_decide; try done.
  intros [= <-]. eauto.
Qed.

(** The writer succeeds on every record and leaves exactly the comment block
    of the specification in the file. *)
Lemma apply_record (E : Env) (fs : FS) (file_path : path) (old_tags : vcomment)
    (rest : list byte) (r : MetadataRecord) (audio : option handle) :
  fs !! file_path = Some (FlacFile old_tags rest) →
  (∀ a, audio = Some a → h_path a = file_path) →
  apply_metadata_to_flac E fs file_path (record_to_json r) audio
  = (true, <[file_path := FlacFile (record_tags r) rest]> fs).
Proof.
  intros Hfile Hpath. unfold apply_metadata_to_flac.
  assert (∃ a, match audio with
               | Some audio => Valid audio
               | None => validate_flac_file fs file_path
               end = Valid a ∧ h_path a = file_path) as (a & -> & Ha).
  { destruct audio as [a|]; [by eauto|].
    rewrite (validate_flac _ _ _ _ Hfile). by eexists. }
  cbn [as_dict record_to_json mbind res_bind].
  rewrite (new_tags_record E r _ eq_refl). cbn [mbind res_bind].
  unfold save. rewrite checked_jsonify, Ha, Hfile. done.
Qed.

Lemma snapshot_entry_shown (tags : vcomment) (field : string) (values : list string) :
  vc_get tags field = values → values ≠ [] →
  snapshot_entry tags field = Some (field, shown values).
Proof.
  intros Hget Hne. unfold snapshot_entry.
  assert (vc_contains tags field = true) as -> by (apply vc_contains_get; congruence).
  rewrite Hget. by destruct values as [|? [|??]].
Qed.

Ltac vc_get_chain :=
  rewrite ?vc_get_set_ne by (vm_compute; reflexivity); apply vc_get_set_eq.

Lemma title_choice (r : MetadataRecord) (tags : vcomment) :
  movement r ≠ Some "" →
  (if is_set (movement r)
   then vc_set tags "TITLE" [default "" (movement r)]
   else vc_set tags "TITLE" [default "" (work r)])
  = vc_set tags "TITLE" [default "" (from_option Some (work r) (movement r))].
Proof. by destruct (movement r) as [[|??]|]. Qed.

(** The snapshot of the comment block written for a record whose fields,
    the movement possibly excepted, are all present. *)
Lemma snapshot_of_record_tags (file_path : path) (r : MetadataRecord) :
  is_set (composer r) → is_set (work r) → movement r ≠ Some "" →
  is_set_list (performers r) → is_set (orchestra r) →
  is_set_list (soloists r) → is_set (date r) → is_set (disc r) →
  is_set (track r) →
  get_current_metadata {| h_path := file_path; h_tags := record_tags r |}
  = [ ("COMPOSER", Single (default "" (composer r)));
      ("ALBUM", Single (default "" (work r)));
      ("WORK", Single (default "" (work r)));
      ("TITLE", Single (default "" (from_option Some (work r) (movement r))));
      ("ARTIST", Single (py_join ", " (default [] (performers r))));
      ("ALBUMARTIST", Single (py_join ", " (default [] (performers r))));
      ("ORCHESTRA", Single (default "" (orchestra r)));
      ("ENSEMBLE", Single (default "" (orchestra r)));
      ("PERFORMER", shown (default [] (soloists r)));
      ("DATE", Single (default "" (date r)));
      ("DISCNUMBER", Single (default "" (disc r)));
      ("TRACKNUMBER", Single (default "" (track r))) ].
Proof.
  intros Hc%Is_true_true Hw%Is_true_true Hm Hp%Is_true_true Ho%Is_true_true
    Hs%Is_true_true Hd%Is_true_true Hdi%Is_true_true Ht%Is_true_true.
  assert (default [] (soloists r) ≠ []) as Hsne
    by (by destruct (soloists r) as [[|??]|]).
  unfold get_current_metadata, snapshot_fields, record_tags. cbn [h_tags].
  rewrite Hc, Hw, Hp, Ho, Hs, Hd, Hdi, Ht. unfold write_if.
  rewrite (title_choice r _ Hm).
  cbn [omap list_omap].
  rewrite (snapshot_entry_shown _ "COMPOSER" [default "" (composer r)]);
    [| vc_get_chain | done ].
  rewrite (snapshot_entry_shown _ "ALBUM" [default "" (work r)]);
    [| vc_get_chain | done ].
  rewrite (snapshot_entry_shown _ "WORK" [default "" (work r)]);
    [| vc_get_chain | done ].
  rewrite (snapshot_entry_shown _ "TITLE"
             [default "" (from_option Some (work r) (movement r))]);
    [| vc_get_chain | done ].
  rewrite (snapshot_entry_shown _ "ARTIST"
             [py_join ", " (default [] (performers r))]);
    [| vc_get_chain | done ].
  rewrite (snapshot_entry_shown _ "ALBUMARTIST"
             [py_join ", " (default [] (performers r))]);
    [| vc_get_chain | done ].
  rewrite (snapshot_entry_shown _ "ORCHESTRA" [default "" (orchestra r)]);
    [| vc_get_chain | done ].
  rewrite (snapshot_entry_shown _ "ENSEMBLE" [default "" (orchestra r)]);
    [| vc_get_chain | done ].
  rewrite (snapshot_entry_shown _ "PERFORMER" (default [] (soloists r)));
    [| vc_get_chain | done ].
  rewrite (snapshot_entry_shown _ "DATE" [default "" (date r)]);
    [| vc_get_chain | done ].
  rewrite (snapshot_entry_shown _ "DISCNUMBER" [default "" (disc r)]);
    [| vc_get_chain | done ].
  rewrite (snapshot_entry_shown _ "TRACKNUMBER" [default "" (track r)]);
    [| vc_get_chain | done ].
  done.
Qed.

(** C6 (amended): writing a record with all fields set (the writer clears
    the tags first) and reading the file back with the snapshot operation
    yields ALBUM == WORK == the work, TITLE == the movement, ARTIST ==
    ALBUMARTIST == the performers joined with ", ", ORCHESTRA == ENSEMBLE ==
    the orchestra, DATE, DISCNUMBER and TRACKNUMBER equal to date, disc and
    track, and PERFORMER == the soloists: as a list when there are two or
    more, as the single string when there is exactly one.  Written without
    its movement, the record yields TITLE == the work. *)
Theorem C6_write_then_snapshot (E : Env) (fs : FS) (file_path : path)
    (old_tags : vcomment) (rest : list byte) (audio : option handle)
    (r : MetadataRecord) :
  fs !! file_path = Some (FlacFile old_tags rest) →
  (∀ a, audio = Some a → h_path a = file_path) →
  all_fields_set r →
  (∃ fs' h,
     apply_metadata_to_flac E fs file_path (record_to_json r) audio = (true, fs')
     ∧ validate_flac_file fs' file_path = Valid h
     ∧ let snap := get_current_metadata h in
       snapshot_get snap "COMPOSER" = Single <$> composer r
       ∧ snapshot_get snap "ALBUM" = Single <$> work r
       ∧ snapshot_get snap "WORK" = Single <$> work r
       ∧ snapshot_get snap "TITLE" = Single <$> movement r
       ∧ snapshot_get snap "ARTIST" = Single ∘ py_join ", " <$> performers r
       ∧ snapshot_get snap "ALBUMARTIST" = Single ∘ py_join ", " <$> performers r
       ∧ snapshot_get snap "ORCHESTRA" = Single <$> orchestra r
       ∧ snapshot_get snap "ENSEMBLE" = Single <$> orchestra r
       ∧ snapshot_get snap "PERFORMER" = shown <$> soloists r
       ∧ snapshot_get snap "DATE" = Single <$> date r
       ∧ snapshot_get snap "DISCNUMBER" = Single <$> disc r
       ∧ snapshot_get snap "TRACKNUMBER" = Single <$> track r)
  ∧ (∃ fs' h,
       apply_metadata_to_flac E fs file_path
         (record_to_json (without_movement r)) audio = (true, fs')
       ∧ validate_flac_file fs' file_path = Valid h
       ∧ snapshot_get (get_current_metadata h) "TITLE" = Single <$> work r).
Proof.
  intros Hfile Hpath (Hc & Hw & Hm & Hp & Ho & Hs & Hd & Hdi & Ht).
  assert (movement r ≠ Some "") as Hm' by (by intros Heq; rewrite Heq in Hm).
  split.
  - eexists _, _. split; [by eapply apply_record|].
    split; [eapply validate_flac; apply lookup_insert_eq|].
    cbn zeta. rewrite snapshot_of_record_tags by done.
    destruct (composer r); [|done]. destruct (work r); [|done].
    destruct (movement r); [|done]. destruct (performers r); [|done].
    destruct (orchestra r); [|done]. destruct (soloists r); [|done].
    destruct (date r); [|done]. destruct (disc r); [|done].
    destruct (track r); [|done]. done.
  - eexists _, _. split; [by eapply apply_record|].
    split; [eapply validate_flac; apply lookup_insert_eq|].
    rewrite snapshot_of_record_tags by done.
    cbn [without_movement work movement from_option].
    by destruct (work r).
Qed.

Lemma C6_witness :
  ∃ fs' h,
    apply_metadata_to_flac offline_env untagged_library partita_path
      (record_to_json full_record) None = (true, fs')
    ∧ validate_flac_file fs' partita_path = Valid h
    ∧ snapshot_get (get_current_metadata h) "PERFORMER"
      = Some (Multi ["Menuhin, Yehudi"; "Oistrakh, David"])
    ∧ snapshot_get (get_current_metadata h) "ARTIST"
      = Some (Single "Menuhin, Yehudi, Oistrakh, David").
Proof.
  destruct (C6_write_then_snapshot offline_env untagged_library partita_path
              [] [] None full_record)
    as [(fs' & h & Happly & Hvalid & Hsnap) _].
  - reflexivity.
  - intros a Ha. discriminate Ha.
  - vm_compute. tauto.
  - exists fs', h. split; [exact Happly|]. split; [exact Hvalid|].
    cbn zeta in Hsnap. split; [apply Hsnap|apply Hsnap].
Defined.

(** C6 as stated fails for a record with exactly one soloist: PERFORMER
    reads back as the string, not as a list. *)
Lemma C6_counterexample :
  all_fields_set solo_record
  ∧ let '(success, fs') :=
      apply_metadata_to_flac offline_env untagged_library partita_path
        (record_to_json solo_record) None in
    success = true
    ∧ match validate_flac_file fs' partita_path with
      | Valid h =>
          snapshot_get (get_current_metadata h) "PERFORMER"
          = Some (Single "Milstein, Nathan")
          ∧ snapshot_get (get_current_metadata h) "PERFORMER"
            ≠ Multi <$> soloists solo_record
      | Invalid _ => False
      end.
Proof. vm_compute. repeat split; discriminate. Qed.

(** ** Strings and path names *)

Lemma str_app_cons (x : ascii) (a b : string) :
  String x a +:+ b = String x (a +:+ b).
Proof. done. Qed.

Lemma str_app_assoc (a b c : string) : (a +:+ b) +:+ c = a +:+ b +:+ c.
Proof. induction a as [|x a IH]; [done|]. by rewrite !str_app_cons, IH. Qed.

Lemma str_length_app (a b : string) :
  String.length (a +:+ b) = (String.length a + String.length b)%nat.
Proof.
  induction a as [|x a IH]; [done|]. rewrite str_app_cons. cbn. by rewrite IH.
Qed.

Lemma str_app_inv_tail (a b c : string) : a +:+ c = b +:+ c → a = b.
Proof.
  revert b. induction a as [|x a IH]; intros [|y b] Heq.
  - done.
  - apply (f_equal String.length) in Heq.
    rewrite !str_length_app in Heq. cbn in Heq. lia.
  - apply (f_equal String.length) in Heq.
    rewrite !str_length_app in Heq. cbn in Heq. lia.
  - rewrite !str_app_cons in Heq. injection Heq as -> Heq. f_equal. by apply IH.
Qed.

(** A name that ends in ".flac" splits there. *)
Lemma split_last_dot_flac (a : string) :
  split_last_dot (a +:+ ".flac") = Some (a, ".flac").
Proof.
  induction a as [|x a IH]; [done|]. rewrite str_app_cons. cbn. by rewrite IH.
Qed.

Lemma stem_flac (a : string) : a ≠ "" → stem (a +:+ ".flac") = a.
Proof.
  intros Ha. unfold stem. rewrite split_last_dot_flac.
  by destruct a.
Qed.

(** The temporary output never is the source itself. *)
Lemma temp_output_ne (file_path : path) : temp_output file_path ≠ file_path.
Proof.
  destruct file_path as [parent name]. unfold temp_output. cbn.
  intros [= Hname].
  assert (stem name = "." +:+ stem name +:+ "_converted") as Hstem.
  { rewrite <- Hname at 1.
    change "_converted.flac" with ("_converted" +:+ ".flac").
    rewrite <- !str_app_assoc. by apply stem_flac. }
  apply (f_equal String.length) in Hstem.
  rewrite !str_length_app in Hstem. cbn in Hstem. lia.
Qed.

(** A name that starts with the stem and an underscore is not the stem
    shifted behind a dot. *)
Lemma underscore_not_dot (s x y : string) :
  s +:+ String "_" x ≠ String "." (s +:+ y).
Proof.
  induction s as [|c s IH]; [done|]. rewrite !str_app_cons.
  intros [= -> Heq]. by apply IH.
Qed.

Lemma backup_candidate_ne_temp (E : Env) (file_path : path) (fmt : format)
    (k : nat) :
  backup_candidate E file_path fmt k ≠ temp_output file_path.
Proof.
  unfold backup_candidate, temp_output, backup_name, numbered_backup_name.
  destruct k; intros [= _ Heq];
    exact (underscore_not_dot (stem file_path.2) _ "_converted.flac" Heq).
Qed.

Lemma backup_candidate_inj (E : Env) (file_path : path) (fmt : format) :
  Inj (=) (=) (backup_candidate E file_path fmt).
Proof.
  intros j k Heq. unfold backup_candidate, backup_name, numbered_backup_name in Heq.
  destruct j, k; [done| | |]; injection Heq as Heq;
    do 3 apply String.app_inj in Heq.
  - apply (f_equal String.length) in Heq.
    rewrite !str_length_app in Heq. cbn in Heq. lia.
  - apply (f_equal String.length) in Heq.
    rewrite !str_length_app in Heq. cbn in Heq. lia.
  - apply String.app_inj in Heq. apply str_app_inv_tail in Heq.
    by apply pretty_nat_inj in Heq.
Qed.

(** ** The backup-name loop *)

Section backup_loop.
Context (E : Env) (file_path : path) (fmt : format).

Let cand := backup_candidate E file_path fmt.
Let numbered := λ counter : nat,
  (backup_folder E, numbered_backup_name file_path fmt counter).

(** With more fuel than there are existing candidates left, the loop stops
    at the first free candidate. *)
Lemma backup_loop_first_free (fs : FS) (fuel k : nat) (taken : gset path) :
  (size taken < fuel)%nat →
  (∀ j, (k ≤ j)%nat → is_Some (fs !! cand j) → cand j ∈ taken) →
  ∃ j, (k ≤ j)%nat
       ∧ backup_loop fuel fs numbered (cand k) (S k) = Some (cand j)
       ∧ fs !! cand j = None
       ∧ ∀ i, (k ≤ i < j)%nat → is_Some (fs !! cand i).
Proof.
  revert k taken. induction fuel as [|fuel IH]; intros k taken Hsize Htaken.
  { lia. }
  cbn [backup_loop]. destruct (fs !! cand k) as [c|] eqn:Hk.
  - assert (cand k ∈ taken) as Hin by (apply Htaken; [lia|by rewrite Hk]).
    destruct (IH (S k) (taken ∖ {[cand k]})) as (j & Hj & Hloop & Hfree & Hbelow).
    + assert (size taken = size ({[cand k]} : gset path) + size (taken ∖ {[cand k]}))%nat
        as Hsplit.
      { rewrite <- size_union by set_solver. f_equal.
        apply set_eq. intros x. rewrite elem_of_union, elem_of_difference,
          elem_of_singleton. destruct (decide (x = cand k)); naive_solver. }
      rewrite size_singleton in Hsplit. lia.
    + intros i Hi Hsome. apply elem_of_difference. split; [apply Htaken; [lia|done]|].
      rewrite elem_of_singleton. intros Heq.
      apply (backup_candidate_inj E file_path fmt) in Heq. lia.
    + exists j. split; [lia|]. split; [exact Hloop|]. split; [done|].
      intros i Hi. destruct (decide (i = k)) as [->|]; [by rewrite Hk|].
      apply Hbelow. lia.
  - exists k. split; [lia|]. split; [done|]. split; [done|]. intros i Hi. lia.
Qed.

(** The search for a backup name always ends, at the first name that is
    free. *)
Lemma free_backup_path_spec (fs : FS) :
  ∃ k, free_backup_path E fs file_path fmt = Some (cand k)
       ∧ fs !! cand k = None
       ∧ ∀ i, (i < k)%nat → is_Some (fs !! cand i).
Proof.
  destruct (backup_loop_first_free fs (S (size fs)) 0 (dom fs))
    as (k & _ & Hloop & Hfree & Hbelow).
  - rewrite size_dom. lia.
  - intros j _ Hsome. by apply elem_of_dom.
  - exists k. split; [exact Hloop|]. split; [done|].
    intros i Hi. apply Hbelow. lia.
Qed.
End backup_loop.

(** ** Converter *)

(** A pair is determined by its first component and its own second one;
    used to evaluate a result without normalising the file system. *)
Lemma pair_from_fst {A B} (x : A * B) (a : A) : x.1 = a → x = (a, x.2).
Proof. destruct x. cbn. by intros ->. Defined.

Lemma same_except_refl (p : path) (fs : FS) : same_except p fs fs.
Proof. by intros q _. Qed.

Lemma same_except_delete (p : path) (fs fs' : FS) :
  same_except p fs fs' → same_except p fs (delete p fs').
Proof. intros H q Hq. rewrite lookup_delete_ne by done. by apply H. Qed.

Lemma same_except_insert (p : path) (c : content) (fs fs' : FS) :
  same_except p fs fs' → same_except p fs (<[p := c]> fs').
Proof. intros H q Hq. rewrite lookup_insert_ne by done. by apply H. Qed.

(** The two ways a conversion can end: before the swap, with nothing but
    the temporary output touched and no handle returned; or after the swap,
    with the result decided by the validation of the new file. *)
Lemma convert_cases (E : Env) (fs : FS) (file_path : path) :
  let r := convert_to_flac E fs file_path in
  (r.1 = None ∧ same_except (temp_output file_path) fs r.2)
  ∨ (swapped E fs r.2 file_path
     ∧ r.1 = match validate_flac_file r.2 file_path with
             | Valid audio => Some audio
             | Invalid _ => None
             end).
Proof.
  cbn zeta. unfold convert_to_flac, unlink_if_exists.
  pose proof (temp_output_ne file_path) as Hts.
  set (temp := temp_output file_path) in *.
  set (fmt := detect_actual_format fs file_path).
  destruct (which_ffmpeg E); cbn [negb];
    [|left; split; [done|apply same_except_refl]].
  destruct (ffmpeg E (fs !! file_path)) as [e|returncode output];
    [left; split; [done|apply same_except_delete, same_except_refl]|].
  set (fs1 := match output with Some c => <[temp:=c]> fs | None => fs end).
  assert (same_except temp fs fs1) as H1.
  { unfold fs1. destruct output;
      [apply same_except_insert|]; apply same_except_refl. }
  destruct (returncode =? 0); cbn [negb];
    [|left; split; [done|by apply same_except_delete]].
  destruct (fs1 !! temp) as [converted|] eqn:Htemp; [|by left].
  destruct (free_backup_path_spec E file_path fmt fs1) as (k & -> & Hfree & Hbelow).
  set (backup_path := backup_candidate E file_path fmt k) in *.
  unfold move.
  destruct (fs1 !! file_path) as [original|] eqn:Hsrc;
    [|left; split; [done|by apply same_except_delete]].
  assert (backup_path ≠ temp) as Hbt by (intros ->; congruence).
  assert (backup_path ≠ file_path) as Hbs by (intros ->; congruence).
  rewrite lookup_insert_ne, lookup_delete_ne, Htemp by done.
  right. split.
  - exists original, converted, k. fold fmt backup_path. split_and!.
    + by rewrite <- (H1 file_path).
    + by rewrite <- (H1 backup_path).
    + intros i Hi. rewrite <- (H1 _ (backup_candidate_ne_temp E file_path fmt i)).
      by apply Hbelow.
    + destruct (validate_flac_file _ _); cbn [snd];
        by rewrite lookup_insert_ne, lookup_delete_ne, lookup_insert_eq.
    + destruct (validate_flac_file _ _); cbn [snd]; by rewrite lookup_insert_eq.
    + intros p Hp1 Hp2 Hp3.
      destruct (validate_flac_file _ _); cbn [snd];
        rewrite lookup_insert_ne, lookup_delete_ne, lookup_insert_ne,
          lookup_delete_ne by done; by apply H1.
  - destruct (validate_flac_file _ _) eqn:Hvalid; cbn [fst snd]; by rewrite Hvalid.
Qed.

(** C3: when conversion succeeds, the original bytes sit in the backup
    folder under the first free name among stem_original_format.ext,
    stem_original_format_1.ext, stem_original_format_2.ext, ... (every
    earlier name of the sequence existed already, the chosen one did not, so
    no existing backup is overwritten and no file other than the source, the
    backup and the temporary output changes), and the source path now holds a
    file that validates as FLAC, whose handle is the one returned. *)
Theorem C3_conversion_success (E : Env) (fs fs' : FS) (file_path : path)
    (audio : handle) :
  convert_to_flac E fs file_path = (Some audio, fs') →
  ∃ original k,
    let fmt := detect_actual_format fs file_path in
    let backup_path := backup_candidate E file_path fmt k in
    fs !! file_path = Some original
    ∧ fs' !! backup_path = Some original
    ∧ backup_path.1 = home E +:+ "/Desktop/music_backups"
    ∧ backup_path.2 =
        match k with
        | O => stem file_path.2 +:+ "_original_" +:+ format_name fmt
               +:+ suffix file_path.2
        | S _ => stem file_path.2 +:+ "_original_" +:+ format_name fmt
                 +:+ "_" +:+ pretty k +:+ suffix file_path.2
        end
    ∧ fs !! backup_path = None
    ∧ (∀ i, (i < k)%nat → is_Some (fs !! backup_candidate E file_path fmt i))
    ∧ (∀ p, p ≠ file_path → p ≠ backup_path → p ≠ temp_output file_path →
         fs' !! p = fs !! p)
    ∧ validate_flac_file fs' file_path = Valid audio.
Proof.
  intros Hconv. pose proof (convert_cases E fs file_path) as Hcases.
  cbn zeta in Hcases. rewrite Hconv in Hcases. cbn [fst snd] in Hcases.
  destruct Hcases as [[? _]|[Hswap Hres]]; [done|].
  destruct Hswap as (original & converted & k & Hsrc & Hfree & Hbelow & Hbak & Hnew & Hother).
  exists original, k. cbn zeta. split_and!; try done.
  - by destruct k.
  - by destruct k.
  - destruct (validate_flac_file fs' file_path); congruence.
Qed.

Lemma C3_witness :
  let fs' := (convert_to_flac transcoding_env library_with_old_backup song_path).2 in
  fs' !! ("/home/user/Desktop/music_backups", "song_original_mp3_1.flac")
    = Some (Raw mp3_bytes)
  ∧ fs' !! ("/home/user/Desktop/music_backups", "song_original_mp3.flac")
    = Some (Raw [x00])
  ∧ validate_flac_file fs' song_path
    = Valid {| h_path := song_path; h_tags := [] |}.
Proof.
  cbn zeta.
  destruct (C3_conversion_success transcoding_env library_with_old_backup
              (convert_to_flac transcoding_env library_with_old_backup song_path).2
              song_path {| h_path := song_path; h_tags := [] |})
    as (original & k & Hsrc & Hbak & _ & Hname & Hfree & Hbelow & Hother & Hvalid).
  { apply pair_from_fst. vm_compute. reflexivity. }
  split_and!; [| |exact Hvalid]; vm_compute; reflexivity.
Defined.



(** ** Metadata derivation *)

(** The result of the derivation, by the outcome of the service call and of
    the parser: a value is returned in every case. *)
Lemma get_metadata_cases (E : Env) (filename : string)
    (context_files : list string) (existing_metadata : option snapshot) :
  get_metadata_from_openrouter E filename context_files existing_metadata =
  match chat_completion E (build_request filename context_files existing_metadata) with
  | Raise _ => JNull
  | Ok None => JNull
  | Ok (Some text) =>
      match json_loads E (extract_json_text (py_strip text)) with
      | Ok metadata => metadata
      | Raise _ => JNull
      end
  end.
Proof.
  unfold get_metadata_from_openrouter, parse_reply, try_except.
  destruct (chat_completion E _) as [[text|]|e]; cbn; try done.
Qed.

(** ** The per-file pipeline *)





(** ** Run counters *)

Lemma total_incr_processed c : total (incr_processed c) = S (total c).
Proof. unfold total. cbn. lia. Qed.
Lemma total_incr_verified c : total (incr_verified c) = S (total c).
Proof. unfold total. cbn. lia. Qed.
Lemma total_incr_updated c : total (incr_updated c) = S (total c).
Proof. unfold total. cbn. lia. Qed.
Lemma total_incr_skipped c : total (incr_skipped c) = S (total c).
Proof. unfold total. cbn. lia. Qed.
Lemma total_incr_failed c : total (incr_failed c) = S (total c).
Proof. unfold total. cbn. lia. Qed.

(** An iteration of normal mode that returns has incremented exactly one of
    processed, skipped, failed. *)
Lemma process_file_normal_bucket (E : Env) (dry_run : bool) (fs fs' : FS)
    (file_path : path) (c c' : counters) :
  process_file_normal E dry_run fs file_path c = (Ok c', fs') →
  c' = incr_processed c ∨ c' = incr_skipped c ∨ c' = incr_failed c.
Proof.
  unfold process_file_normal.
  destruct (validate_or_convert E fs file_path) as [[audio|] fs1]; [|naive_solver].
  destruct (has_proper_metadata audio) as [[] ?]; [naive_solver|].
  destruct (py_truthy _); [|naive_solver].
  destruct (display_metadata_table _); [|done].
  destruct dry_run; cbn [negb]; [naive_solver|].
  destruct (apply_metadata_to_flac _ _ _ _ _) as [[] ?]; naive_solver.
Qed.

(** An iteration of audit mode that returns has incremented exactly one of
    verified, updated, skipped, failed. *)
Lemma process_file_audit_bucket (E : Env) (dry_run : bool) (fs fs' : FS)
    (file_path : path) (c c' : counters) :
  process_file_audit E dry_run fs file_path c = (Ok c', fs') →
  c' = incr_verified c ∨ c' = incr_updated c
  ∨ c' = incr_skipped c ∨ c' = incr_failed c.
Proof.
  unfold process_file_audit.
  destruct (validate_or_convert E fs file_path) as [[audio|] fs1]; [|naive_solver].
  destruct (py_truthy _); [|naive_solver].
  destruct (detect_changes _ _) as [[[] ?]|]; [| naive_solver | done].
  destruct dry_run; cbn [negb]; [naive_solver|].
  destruct (confirm_ask E file_path); [|naive_solver].
  destruct (apply_metadata_to_flac _ _ _ _ _) as [[] ?]; naive_solver.
Qed.

(** A run that reaches its summary has counted every enumerated file
    once. *)
Lemma process_files_normal_total (E : Env) (dry_run : bool)
    (flac_files : list path) (fs fs' : FS) (c c' : counters) :
  process_files_normal E dry_run flac_files fs c = (Ok c', fs') →
  total c' = (total c + length flac_files)%nat
  ∧ verified c' = verified c ∧ updated c' = updated c.
Proof.
  revert fs c. induction flac_files as [|file_path rest IH]; intros fs c Hrun.
  - cbn in Hrun. injection Hrun as <- _. cbn. lia.
  - cbn [process_files_normal] in Hrun.
    destruct (process_file_normal E dry_run fs file_path c) as [[c1|e] fs1] eqn:Hfile;
      [|done].
    apply IH in Hrun as (Htotal & Hver & Hupd).
    apply process_file_normal_bucket in Hfile as [->|[->| ->]];
      rewrite ?total_incr_processed, ?total_incr_skipped, ?total_incr_failed
        in Htotal; cbn in *; lia.
Qed.

Lemma process_files_audit_total (E : Env) (dry_run : bool)
    (flac_files : list path) (fs fs' : FS) (c c' : counters) :
  process_files_audit E dry_run flac_files fs c = (Ok c', fs') →
  total c' = (total c + length flac_files)%nat ∧ processed c' = processed c.
Proof.
  revert fs c. induction flac_files as [|file_path rest IH]; intros fs c Hrun.
  - cbn in Hrun. injection Hrun as <- _. cbn. lia.
  - cbn [process_files_audit] in Hrun.
    destruct (process_file_audit E dry_run fs file_path c) as [[c1|e] fs1] eqn:Hfile;
      [|done].
    apply IH in Hrun as (Htotal & Hproc).
    apply process_file_audit_bucket in Hfile as [->|[->|[->| ->]]];
      rewrite ?total_incr_verified, ?total_incr_updated, ?total_incr_skipped,
        ?total_incr_failed in Htotal; cbn in *; lia.
Qed.

(** With replies of the expected shape the derivation yields None or a
    record. *)
Lemma get_metadata_record (E : Env) (filename : string)
    (context_files : list string) (existing : option snapshot) :
  record_replies E →
  get_metadata_from_openrouter E filename context_files existing = JNull
  ∨ ∃ r, get_metadata_from_openrouter E filename context_files existing
         = record_to_json r.
Proof.
  intros Hshape. unfold get_metadata_from_openrouter, try_except.
  destruct (parse_reply E _) as [metadata|e] eqn:Hparse; [|by left].
  by apply Hshape in Hparse.
Qed.




(** ** Dry run *)

Lemma convert_success_valid (E : Env) (fs fs' : FS) (file_path : path)
    (audio : handle) :
  convert_to_flac E fs file_path = (Some audio, fs') →
  validate_flac_file fs' file_path = Valid audio.
Proof.
  intros Hconv. pose proof (convert_cases E fs file_path) as Hcases.
  cbn zeta in Hcases. rewrite Hconv in Hcases. cbn [fst snd] in Hcases.
  destruct Hcases as [[? _]|[_ Hres]]; [done|].
  destruct (validate_flac_file fs' file_path); congruence.
Qed.

(** The handle a file is processed with is the validation of the file as
    it then is on disk. *)
Lemma validate_or_convert_valid (E : Env) (fs fs' : FS) (file_path : path)
    (audio : handle) :
  validate_or_convert E fs file_path = (Some audio, fs') →
  validate_flac_file fs' file_path = Valid audio.
Proof.
  unfold validate_or_convert.
  destruct (validate_flac_file fs file_path) as [a|why] eqn:Hvalid.
  - by intros [= <- <-].
  - apply convert_success_valid.
Qed.

(** Under dry run an iteration changes the file system by the conversion
    attempt and by nothing else: no tag is written. *)
Lemma dry_run_file_normal (E : Env) (fs : FS) (file_path : path) (c : counters) :
  (process_file_normal E true fs file_path c).2
  = (validate_or_convert E fs file_path).2.
Proof.
  unfold process_file_normal.
  destruct (validate_or_convert E fs file_path) as [[audio|] fs1]; [|done].
  destruct (has_proper_metadata audio) as [[] ?]; [done|].
  destruct (py_truthy _); [|done].
  by destruct (display_metadata_table _).
Qed.

Lemma dry_run_file_audit (E : Env) (fs : FS) (file_path : path) (c : counters) :
  (process_file_audit E true fs file_path c).2
  = (validate_or_convert E fs file_path).2.
Proof.
  unfold process_file_audit.
  destruct (validate_or_convert E fs file_path) as [[audio|] fs1]; [|done].
  destruct (py_truthy _); [|done].
  by destruct (detect_changes _ _) as [[[] ?]|].
Qed.

Lemma validate_or_convert_valid_file (E : Env) (fs : FS) (file_path : path)
    (tags : vcomment) (rest : list byte) :
  fs !! file_path = Some (FlacFile tags rest) →
  (validate_or_convert E fs file_path).2 = fs.
Proof.
  intros Hfile. unfold validate_or_convert.
  by rewrite (validate_flac _ _ _ _ Hfile).
Qed.

(** Under dry run a library of valid FLAC files is left as it was, in both
    modes. *)
Lemma dry_run_valid_library (E : Env) (flac_files : list path) (fs : FS)
    (c : counters) :
  (∀ file_path, file_path ∈ flac_files →
     ∃ tags rest, fs !! file_path = Some (FlacFile tags rest)) →
  (process_files_normal E true flac_files fs c).2 = fs
  ∧ (process_files_audit E true flac_files fs c).2 = fs.
Proof.
  intros Hvalid. split.
  - revert c. induction flac_files as [|file_path rest IH]; intros c; [done|].
    cbn [process_files_normal].
    destruct (Hvalid file_path) as (tags & rest' & Hfile); [apply list_elem_of_here|].
    pose proof (dry_run_file_normal E fs file_path c) as Hfs.
    rewrite (validate_or_convert_valid_file _ _ _ _ _ Hfile) in Hfs.
    destruct (process_file_normal E true fs file_path c) as [[c1|e] fs1];
      cbn [snd] in Hfs; subst fs1; [|done].
    apply IH. intros f Hf. apply Hvalid. by apply list_elem_of_further.
  - revert c. induction flac_files as [|file_path rest IH]; intros c; [done|].
    cbn [process_files_audit].
    destruct (Hvalid file_path) as (tags & rest' & Hfile); [apply list_elem_of_here|].
    pose proof (dry_run_file_audit E fs file_path c) as Hfs.
    rewrite (validate_or_convert_valid_file _ _ _ _ _ Hfile) in Hfs.
    destruct (process_file_audit E true fs file_path c) as [[c1|e] fs1];
      cbn [snd] in Hfs; subst fs1; [|done].
    apply IH. intros f Hf. apply Hvalid. by apply list_elem_of_further.
Qed.

(** With replies of the expected shape the counters of a dry run are those
    of the live run: every write of the live run succeeds.  (In audit mode,
    for a file the user approves.) *)
Lemma dry_run_counters (E : Env) (fs : FS) (file_path : path) (c : counters) :
  record_replies E →
  (process_file_normal E true fs file_path c).1
  = (process_file_normal E false fs file_path c).1
  ∧ (confirm_ask E file_path = true →
     (process_file_audit E true fs file_path c).1
     = (process_file_audit E false fs file_path c).1).
Proof.
  intros Hshape. unfold process_file_normal, process_file_audit.
  destruct (validate_or_convert E fs file_path) as [[audio|] fs1] eqn:Hvc; [|done].
  apply validate_or_convert_valid, validate_valid_inv in Hvc as [Hpath [rest Hfile]].
  split.
  - destruct (has_proper_metadata audio) as [[] ?]; [done|].
    destruct (get_metadata_record E file_path.2 (glob_flac_names fs1 file_path.1)
                None Hshape) as [->|[r ->]]; [done|].
    destruct (py_truthy _); [|done].
    cbn [display_metadata_table record_to_json as_dict mbind res_bind negb].
    by rewrite (apply_record E fs1 file_path (h_tags audio) rest r (Some audio))
      by (done || by intros ? [= <-]).
  - intros Hconfirm.
    destruct (get_metadata_record E file_path.2 (glob_flac_names fs1 file_path.1)
                (Some (get_current_metadata audio)) Hshape) as [->|[r ->]]; [done|].
    destruct (py_truthy _); [|done].
    destruct (detect_changes_record r (get_current_metadata audio)) as [summary ->].
    destruct (bool_decide _); [|done]. cbn [negb]. rewrite Hconfirm.
    by rewrite (apply_record E fs1 file_path (h_tags audio) rest r (Some audio))
      by (done || by intros ? [= <-]).
Qed.

(** C1, evaluated on a library whose only file is an MP3 named song.flac,
    with ffmpeg installed: under dry run, in either mode, the file is
    converted all the same.  The source path holds other bytes than before
    the run and the original has been moved to the backup folder. *)
Theorem C1_dry_run_converts :
  mislabeled_library !! song_path = Some (Raw mp3_bytes)
  ∧ (let fs' := (process_folder_normal transcoding_env mislabeled_library
                   "/music" true).2 in
     fs' !! song_path = Some (FlacFile [] [x00])
     ∧ fs' !! ("/home/user/Desktop/music_backups", "song_original_mp3.flac")
       = Some (Raw mp3_bytes))
  ∧ (let fs' := (process_folder_audit transcoding_env mislabeled_library
                   "/music" true).2 in
     fs' !! song_path = Some (FlacFile [] [x00])
     ∧ fs' !! ("/home/user/Desktop/music_backups", "song_original_mp3.flac")
       = Some (Raw mp3_bytes)).
Proof. vm_compute. repeat split. Qed.

(** ** Fence stripping *)

Lemma prefix_cons (a c : ascii) (p s : string) :
  String.prefix (String a p) (String c s)
  = match ascii_dec a c with
    | left _ => String.prefix p s
    | right _ => false
    end.
Proof. reflexivity. Qed.

Lemma startswith_app (pre s : string) : startswith (pre +:+ s) pre = true.
Proof.
  unfold startswith. induction pre as [|c pre IH]; [by destruct s|].
  rewrite str_app_cons, prefix_cons. by destruct (ascii_dec c c).
Qed.

Lemma space_not_backtick (c : ascii) : py_isspace c = true → is_backtick c = false.
Proof.
  intros Hspace. unfold is_backtick. destruct (Ascii.eqb c backtick) eqn:Heq; [|done].
  apply Ascii.eqb_eq in Heq. subst c. done.
Qed.

Lemma startswith_fence_cons (c : ascii) (s : string) :
  is_backtick c = false → startswith (String c s) fence = false.
Proof.
  unfold startswith, fence, is_backtick. intros Hc. rewrite prefix_cons.
  destruct (ascii_dec _ c) as [<-|]; [|done].
  by rewrite Ascii.eqb_refl in Hc.
Qed.

(** White space followed by the closing fence closes the block. *)
Lemma closes_here_spaces (ws rest : string) :
  all_space ws = true → closes_here (ws +:+ fence +:+ rest) = true.
Proof.
  induction ws as [|c ws IH]; intros Hws.
  - change ("" +:+ fence +:+ rest) with (fence +:+ rest).
    destruct rest; done.
  - cbn in Hws. apply andb_true_iff in Hws as [Hc Hws].
    rewrite str_app_cons. cbn [closes_here]. rewrite Hc, (IH Hws).
    apply orb_true_r.
Qed.

Lemma rstrip_cons_inv (p : ascii → bool) (c : ascii) (s : string) :
  rstrip_by p (String c s) = String c s →
  rstrip_by p s = s ∧ (s = "" → p c = false).
Proof.
  cbn. destruct (is_empty (rstrip_by p s) && p c) eqn:Hif; [done|].
  intros [= Hs]. split; [done|]. intros ->. cbn in Hif. done.
Qed.

(** Inside a body that ends in a character other than white space, and
    holds no backtick, the block is not closed. *)
Lemma closes_here_body (body rest : string) :
  rstrip_by py_isspace body = body → no_backtick body = true → body ≠ "" →
  closes_here (body +:+ rest) = false.
Proof.
  induction body as [|c body IH]; intros Hstrip Hnb Hne; [done|].
  apply rstrip_cons_inv in Hstrip as [Hstrip Hlast].
  cbn in Hnb. apply andb_true_iff in Hnb as [Hc Hnb].
  apply negb_true_iff in Hc.
  rewrite str_app_cons. cbn [closes_here].
  rewrite (startswith_fence_cons _ _ Hc). cbn [orb].
  destruct (py_isspace c) eqn:Hspace; [|done]. cbn [andb].
  apply IH; try done. intros ->. by specialize (Hlast eq_refl).
Qed.

(** The lazy group stops at the end of such a body. *)
Lemma lazy_group_body (body ws rest : string) :
  rstrip_by py_isspace body = body → no_backtick body = true →
  all_space ws = true →
  lazy_group (body +:+ ws +:+ fence +:+ rest) = Some body.
Proof.
  intros Hstrip Hnb Hws. induction body as [|c body IH].
  - change ("" +:+ ws +:+ fence +:+ rest) with (ws +:+ fence +:+ rest).
    destruct (ws +:+ fence +:+ rest) eqn:Heq; cbn [lazy_group];
      by rewrite <- Heq, closes_here_spaces.
  - rewrite str_app_cons. cbn [lazy_group].
    rewrite <- str_app_cons, closes_here_body by done.
    pose proof Hstrip as [Hstrip' _]%rstrip_cons_inv.
    cbn in Hnb. apply andb_true_iff in Hnb as [_ Hnb].
    by rewrite IH.
Qed.

Lemma lstrip_length (p : ascii → bool) (s : string) :
  (String.length (lstrip_by p s) ≤ String.length s)%nat.
Proof. induction s as [|x s IH]; cbn; [lia|]. destruct (p x); cbn; lia. Qed.

Lemma rstrip_length (p : ascii → bool) (s : string) :
  (String.length (rstrip_by p s) ≤ String.length s)%nat.
Proof.
  induction s as [|x s IH]; cbn; [lia|].
  destruct (is_empty _ && p x); cbn; lia.
Qed.

(** A stripped text has no white space at its end, nor at its start. *)
Lemma stripped_inv (body : string) :
  stripped body →
  rstrip_by py_isspace body = body
  ∧ ∀ c r, body = String c r → py_isspace c = false.
Proof.
  unfold stripped, py_strip, strip_by. intros Hbody.
  assert (lstrip_by py_isspace body = body) as Hl.
  { destruct body as [|c body]; [done|]. cbn in *.
    destruct (py_isspace c) eqn:Hc; [|done]. exfalso.
    apply (f_equal String.length) in Hbody. cbn in Hbody.
    pose proof (rstrip_length py_isspace (lstrip_by py_isspace body)).
    pose proof (lstrip_length py_isspace body). lia. }
  split; [by rewrite Hl in Hbody|].
  intros c r ->. cbn in Hl. destruct (py_isspace c); [|done].
  apply (f_equal String.length) in Hl. cbn in Hl.
  pose proof (lstrip_length py_isspace r). lia.
Qed.

(** The greedy white space before the group ends where the body starts. *)
Lemma spaces_then_group_body (ws1 body ws2 rest : string) :
  all_space ws1 = true → stripped body → no_backtick body = true →
  all_space ws2 = true →
  spaces_then_group (ws1 +:+ body +:+ ws2 +:+ fence +:+ rest) = Some body.
Proof.
  intros Hws1 [Hr Hfirst]%stripped_inv Hnb Hws2.
  induction ws1 as [|c ws1 IH].
  - change ("" +:+ body +:+ ws2 +:+ fence +:+ rest)
      with (body +:+ ws2 +:+ fence +:+ rest).
    destruct body as [|c body].
    + change ("" +:+ ws2 +:+ fence +:+ rest) with (ws2 +:+ fence +:+ rest).
      clear Hnb Hr Hfirst. induction ws2 as [|c ws2 IH2].
      * change ("" +:+ fence +:+ rest) with (fence +:+ rest).
        by destruct rest.
      * cbn in Hws2. apply andb_true_iff in Hws2 as [Hc Hws2].
        rewrite str_app_cons. cbn [spaces_then_group]. rewrite Hc.
        by rewrite (IH2 Hws2).
    + rewrite str_app_cons. cbn [spaces_then_group].
      rewrite (Hfirst c body eq_refl).
      rewrite <- str_app_cons. by apply lazy_group_body.
  - cbn in Hws1. apply andb_true_iff in Hws1 as [Hc Hws1].
    rewrite str_app_cons. cbn [spaces_then_group]. rewrite Hc.
    by rewrite (IH Hws1).
Qed.

(** A reply that is a [```json] block: the text handed to the parser is the
    body of the block, whatever follows the closing fence. *)
Lemma extract_json_fenced (ws1 body ws2 rest : string) :
  all_space ws1 = true → stripped body → no_backtick body = true →
  all_space ws2 = true →
  extract_json_text (json_fence +:+ ws1 +:+ body +:+ ws2 +:+ fence +:+ rest) = body.
Proof.
  intros Hws1 Hbody Hnb Hws2. unfold extract_json_text.
  assert (search_json_fence (json_fence +:+ ws1 +:+ body +:+ ws2 +:+ fence +:+ rest)
          = Some body) as ->; [|done].
  change (json_fence +:+ ws1 +:+ body +:+ ws2 +:+ fence +:+ rest)
    with (String backtick (String backtick (String backtick (String "j" (String "s"
          (String "o" (String "n" (ws1 +:+ body +:+ ws2 +:+ fence +:+ rest)))))))).
  cbn [search_json_fence].
  change (String backtick (String backtick (String backtick (String "j" (String "s"
          (String "o" (String "n" (ws1 +:+ body +:+ ws2 +:+ fence +:+ rest))))))))
    with (json_fence +:+ ws1 +:+ body +:+ ws2 +:+ fence +:+ rest).
  rewrite startswith_app.
  change (str_drop 7 (json_fence +:+ ws1 +:+ body +:+ ws2 +:+ fence +:+ rest))
    with (ws1 +:+ body +:+ ws2 +:+ fence +:+ rest).
  by rewrite spaces_then_group_body.
Qed.

(** The bare triple-backtick wrap, with and without the tag json. *)
Lemma extract_bare_fence_examples :
  let nl := String "010" "" in
  extract_json_text (fence +:+ nl +:+ "[1]" +:+ nl +:+ fence) = "[1]"
  ∧ extract_json_text (fence +:+ nl +:+ "json" +:+ nl +:+ "[1]" +:+ nl +:+ fence)
    = "[1]"
  ∧ extract_json_text (json_fence +:+ nl +:+ "[1]" +:+ nl +:+ fence) = "[1]"
  ∧ extract_json_text "[1]" = "[1]".
Proof. vm_compute. repeat split. Qed.

(** ** Replies that are not objects *)

(** C4, evaluated on the reply [[1]] (valid JSON whose top level is an
    array): the derivation returns the array, not None, and the iteration
    of either mode then raises AttributeError (the value has neither
    [items] nor [get]) instead of counting the file as failed. *)
Theorem C4_array_reply_is_not_a_failure :
  get_metadata_from_openrouter array_reply_env "partita.flac" ["partita.flac"] None
    = JArr [JNum 1]
  ∧ (process_file_normal array_reply_env false untagged_library partita_path
       zero_counters).1 = Raise AttributeError
  ∧ (process_file_audit array_reply_env false untagged_library partita_path
       zero_counters).1 = Raise AttributeError.
Proof. vm_compute. repeat split. Qed.

(** C9, evaluated on the same reply: the run over a library of one file
    ends with the exception, in either mode, dry or live; the file is
    counted in no bucket and no summary is produced. *)
Theorem C9_run_aborts_on_array_reply :
  (process_folder_normal array_reply_env untagged_library "/music" false).1
    = Raise AttributeError
  ∧ (process_folder_normal array_reply_env untagged_library "/music" true).1
    = Raise AttributeError
  ∧ (process_folder_audit array_reply_env untagged_library "/music" false).1
    = Raise AttributeError
  ∧ (process_folder_audit array_reply_env untagged_library "/music" true).1
    = Raise AttributeError.
Proof. vm_compute. repeat split. Qed.

(* ===================================================================== *)
(** * Part IV: further properties of the code                             *)
(* ===================================================================== *)

(** ** Validation and sniffing *)

(** X1: validation and the sniffer agree.  A file that validates is
    sniffed as flac and its handle carries the path it was opened from; a
    file sniffed as anything but flac does not validate; a path with no
    file neither validates nor gets a format. *)
Theorem X1_validation_agrees_with_sniffer (fs : FS) (file_path : path) :
  (∀ audio, validate_flac_file fs file_path = Valid audio →
     detect_actual_format fs file_path = flac ∧ h_path audio = file_path)
  ∧ (detect_actual_format fs file_path ≠ flac →
     ∃ why, validate_flac_file fs file_path = Invalid why)
  ∧ (fs !! file_path = None →
     detect_actual_format fs file_path = unknown
     ∧ ∃ why, validate_flac_file fs file_path = Invalid why).
Proof.
  assert (∀ audio, validate_flac_file fs file_path = Valid audio →
            detect_actual_format fs file_path = flac ∧ h_path audio = file_path)
    as Hvalid.
  { intros audio [Hpath [rest Hfile]]%validate_valid_inv. split; [|done].
    unfold detect_actual_format. rewrite Hfile. cbn [try_except].
    apply flac_file_header. lia. }
  split_and!; [done| |].
  - intros Hfmt. destruct (validate_flac_file fs file_path) as [audio|why] eqn:Hv.
    + by destruct (Hvalid audio eq_refl).
    + by exists why.
  - intros Hnone. unfold detect_actual_format, validate_flac_file. rewrite Hnone.
    split; [done|by eexists].
Qed.

(** ** The snapshot *)

Lemma snapshot_entry_cases (tags : vcomment) (field : string) :
  snapshot_entry tags field =
  match vc_get tags field with
  | [] => None
  | values => Some (field, shown values)
  end.
Proof.
  unfold snapshot_entry. destruct (vc_contains tags field) eqn:Hc.
  - by destruct (vc_get tags field) as [|? [|??]].
  - destruct (vc_get tags field) eqn:Hg; [done|].
    assert (vc_contains tags field = true) as Hc'
      by (apply vc_contains_get; congruence).
    congruence.
Qed.

(** Looking a field up in the snapshot built over a list of distinct
    fields. *)
Lemma snapshot_get_omap (tags : vcomment) (fields : list string) (field : string) :
  snapshot_get (omap (snapshot_entry tags) fields) field =
  if decide (field ∈ fields) then snd <$> snapshot_entry tags field else None.
Proof.
  unfold snapshot_get. induction fields as [|f fields IH].
  - by rewrite decide_False by apply not_elem_of_nil.
  - cbn [omap list_omap]. destruct (decide (f = field)) as [->|Hne].
    + rewrite decide_True by apply list_elem_of_here.
      rewrite snapshot_entry_cases in *.
      destruct (vc_get tags field) as [|v l]; cbn [find fst].
      * fold (omap (snapshot_entry tags) fields). rewrite IH.
        by case_decide.
      * cbn. by rewrite String.eqb_refl.
    + assert (String.eqb f field = false) as Hneb by by apply String.eqb_neq.
      assert (find (λ kv : string * tagvalue, String.eqb kv.1 field)
                match snapshot_entry tags f with
                | Some y => y :: omap (snapshot_entry tags) fields
                | None => omap (snapshot_entry tags) fields
                end
              = find (λ kv : string * tagvalue, String.eqb kv.1 field)
                  (omap (snapshot_entry tags) fields)) as ->.
      { rewrite (snapshot_entry_cases tags f).
        destruct (vc_get tags f); [done|]. cbn. by rewrite Hneb. }
      rewrite IH. destruct (decide (field ∈ fields)) as [Hin|Hnin].
      * by rewrite decide_True by by apply list_elem_of_further.
      * rewrite decide_False; [done|].
        intros [?|?]%elem_of_cons; congruence.
Qed.

(** X2: the shape of a snapshot.  Every entry belongs to one of the twelve
    known tags, holds either one string or a list of at least two, and shows
    exactly the values stored under that tag; a known tag has an entry
    exactly when the file has a value for it; and the old value the
    reconciler reads for a known tag is the first value of that tag (the
    empty string when there is none). *)
Theorem X2_snapshot_shape (audio : handle) :
  let snap := get_current_metadata audio in
  (∀ key value, (key, value) ∈ snap →
     key ∈ snapshot_fields
     ∧ vc_get (h_tags audio) key ≠ []
     ∧ value = shown (vc_get (h_tags audio) key)
     ∧ ((∃ s, value = Single s) ∨ (∃ l, value = Multi l ∧ (2 ≤ length l)%nat)))
  ∧ (∀ field, field ∈ snapshot_fields →
       snapshot_get snap field =
       match vc_get (h_tags audio) field with
       | [] => None
       | values => Some (shown values)
       end)
  ∧ (∀ field, field ∈ snapshot_fields →
       old_value snap field = hd "" (vc_get (h_tags audio) field)).
Proof.
  cbn zeta. unfold get_current_metadata.
  assert (∀ field, field ∈ snapshot_fields →
            snapshot_get (omap (snapshot_entry (h_tags audio)) snapshot_fields) field =
            match vc_get (h_tags audio) field with
            | [] => None
            | values => Some (shown values)
            end) as Hget.
  { intros field Hin. rewrite snapshot_get_omap, decide_True by done.
    rewrite snapshot_entry_cases. by destruct (vc_get _ _). }
  split_and!; [|done|].
  - intros key value Hin. apply list_elem_of_omap in Hin as (field & Hfield & Hentry).
    rewrite snapshot_entry_cases in Hentry.
    destruct (vc_get (h_tags audio) field) as [|v l] eqn:Hvalues; [done|].
    injection Hentry as <- <-. rewrite Hvalues. split_and!; [done|done|done|].
    destruct l as [|v' l]; [left; by eexists|right].
    eexists. split; [done|]. cbn. lia.
  - intros field Hin. unfold old_value. rewrite (Hget field Hin).
    by destruct (vc_get (h_tags audio) field) as [|v [|v' l]].
Qed.

(** ** The tag writer *)

(** X3: for every record the writer succeeds on an existing FLAC file and
    replaces its tags wholesale: the file then carries exactly the tags
    computed from the record, whatever tags it carried before, its audio
    data is kept, and no other file changes. *)
Theorem X3_writer_replaces_tags (E : Env) (fs : FS) (file_path : path)
    (old_tags : vcomment) (rest : list byte) (audio : option handle)
    (r : MetadataRecord) :
  fs !! file_path = Some (FlacFile old_tags rest) →
  (∀ a, audio = Some a → h_path a = file_path) →
  ∃ fs',
    apply_metadata_to_flac E fs file_path (record_to_json r) audio = (true, fs')
    ∧ fs' !! file_path = Some (FlacFile (record_tags r) rest)
    ∧ same_except file_path fs fs'.
Proof.
  intros Hfile Hpath. eexists. split; [by eapply apply_record|].
  split; [apply lookup_insert_eq|].
  intros q Hq. by rewrite lookup_insert_ne.
Qed.

Lemma X3_witness :
  ∃ fs',
    apply_metadata_to_flac offline_env tagged_library partita_path
      (record_to_json solo_record) None = (true, fs')
    ∧ fs' !! partita_path = Some (FlacFile (record_tags solo_record) [x01; x02]).
Proof.
  destruct (X3_writer_replaces_tags offline_env tagged_library partita_path
              [("TITLE", "Old title"); ("GENRE", "Baroque")] [x01; x02] None
              solo_record) as (fs' & Happly & Hfile & _).
  - reflexivity.
  - intros a Ha. discriminate Ha.
  - exists fs'. split; [exact Happly|exact Hfile].
Defined.

Lemma record_tags_nothing_set (r : MetadataRecord) :
  no_field_set r → record_tags r = [].
Proof.
  intros (Hc & Hw & Hm & Hp & Ho & Hs & Hd & Hdi & Ht).
  unfold record_tags. by rewrite Hc, Hw, Hm, Hp, Ho, Hs, Hd, Hdi, Ht.
Qed.

(** X4: a reply whose fields are all null (or empty) is still a non-empty
    dict, hence true in a condition; writing it erases every tag of the
    file, after which the snapshot is empty and all four required fields
    are missing. *)
Theorem X4_null_record_erases_tags (E : Env) (fs : FS) (file_path : path)
    (old_tags : vcomment) (rest : list byte) (r : MetadataRecord) :
  fs !! file_path = Some (FlacFile old_tags rest) →
  no_field_set r →
  py_truthy (record_to_json r) = true
  ∧ ∃ fs',
      apply_metadata_to_flac E fs file_path (record_to_json r) None = (true, fs')
      ∧ fs' !! file_path = Some (FlacFile [] rest)
      ∧ validate_flac_file fs' file_path
        = Valid {| h_path := file_path; h_tags := [] |}
      ∧ get_current_metadata {| h_path := file_path; h_tags := [] |} = []
      ∧ has_proper_metadata {| h_path := file_path; h_tags := [] |}
        = (false, ["composer"; "work"; "title"; "artist"]).
Proof.
  intros Hfile Hnone. split; [done|].
  eexists. split; [by eapply apply_record|].
  rewrite (record_tags_nothing_set r Hnone).
  split; [apply lookup_insert_eq|].
  split; [eapply validate_flac; apply lookup_insert_eq|]. done.
Qed.

Lemma X4_witness :
  ∃ fs',
    apply_metadata_to_flac offline_env tagged_library partita_path
      (record_to_json null_record) None = (true, fs')
    ∧ fs' !! partita_path = Some (FlacFile [] [x01; x02]).
Proof.
  destruct (X4_null_record_erases_tags offline_env tagged_library partita_path
              [("TITLE", "Old title"); ("GENRE", "Baroque")] [x01; x02]
              null_record) as (_ & fs' & Happly & Hfile & _).
  - reflexivity.
  - vm_compute. tauto.
  - exists fs'. split; [exact Happly|exact Hfile].
Defined.

(** X5: a write is all or nothing and touches one file.  When the writer
    reports failure the file system is as before.  When it reports success
    the metadata was a dict, the handle's file existed as a FLAC file, and
    the only change is that this file carries new tags over the same audio
    data.  Metadata that is not a dict always fails. *)
Theorem X5_write_all_or_nothing (E : Env) (fs : FS) (file_path : path)
    (metadata : json) (audio : option handle) :
  (∀ fs', apply_metadata_to_flac E fs file_path metadata audio = (false, fs') →
     fs' = fs)
  ∧ (∀ fs', apply_metadata_to_flac E fs file_path metadata audio = (true, fs') →
       ∃ items a old_tags new_tags rest,
         metadata = JObj items
         ∧ (audio = Some a ∨ (audio = None ∧ validate_flac_file fs file_path = Valid a))
         ∧ fs !! h_path a = Some (FlacFile old_tags rest)
         ∧ fs' = <[h_path a := FlacFile new_tags rest]> fs)
  ∧ ((∀ items, metadata ≠ JObj items) →
     apply_metadata_to_flac E fs file_path metadata audio = (false, fs)).
Proof.
  unfold apply_metadata_to_flac.
  set (opened := match audio with
                 | Some a => Valid a
                 | None => validate_flac_file fs file_path
                 end).
  assert (∀ a, opened = Valid a →
            audio = Some a ∨ (audio = None ∧ validate_flac_file fs file_path = Valid a))
    as Hopened.
  { intros a. unfold opened. destruct audio; [intros [= ->]; by left|by right]. }
  destruct opened as [a|why].
  - split_and!.
    + intros fs'. by destruct (_ ≫= _); intros [= <-].
    + intros fs'. destruct metadata as [| | | | |items]; try done.
      cbn [as_dict mbind res_bind].
      destruct (new_tags E items) as [tags|e]; [|done]. cbn [mbind res_bind].
      unfold save. destruct (mapM checked_value tags) as [tags'|]; [|done].
      destruct (fs !! h_path a) as [[bytes|old_tags rest]|] eqn:Hfile; try done.
      intros [= <-]. exists items, a, old_tags, tags', rest. eauto.
    + intros Hshape. destruct metadata; try done. by destruct (Hshape items).
  - split_and!; [by intros fs' [= <-]|done|done].
Qed.

Lemma vc_get_write_if_eq (cond : bool) (tags : vcomment) (k : string)
    (values : list string) :
  vc_get (write_if cond k values tags) k = if cond then values else vc_get tags k.
Proof. destruct cond; [apply vc_get_set_eq|done]. Qed.

Lemma vc_get_write_if_ne (cond : bool) (tags : vcomment) (k k' : string)
    (values : list string) :
  key_match k' k = false →
  vc_get (write_if cond k values tags) k' = vc_get tags k'.
Proof. intros Hne. destruct cond; [by apply vc_get_set_ne|done]. Qed.

Ltac record_tag_values :=
  repeat first
    [ rewrite vc_get_write_if_ne by (vm_compute; reflexivity)
    | rewrite vc_get_set_ne by (vm_compute; reflexivity)
    | rewrite vc_get_write_if_eq
    | rewrite vc_get_set_eq
    | rewrite vc_get_nil ].

(** The values stored under each known tag by the writer, for any record. *)
Lemma record_tags_values (r : MetadataRecord) :
  let tags := record_tags r in
  let one (o : option string) := if is_set o then [default "" o] else [] in
  let joined := if is_set_list (performers r)
                then [py_join ", " (default [] (performers r))] else [] in
  vc_get tags "COMPOSER" = one (composer r)
  ∧ vc_get tags "ALBUM" = one (work r)
  ∧ vc_get tags "WORK" = one (work r)
  ∧ vc_get tags "TITLE" = (if is_set (movement r) then one (movement r)
                           else one (work r))
  ∧ vc_get tags "ARTIST" = joined
  ∧ vc_get tags "ALBUMARTIST" = joined
  ∧ vc_get tags "ORCHESTRA" = one (orchestra r)
  ∧ vc_get tags "ENSEMBLE" = one (orchestra r)
  ∧ vc_get tags "PERFORMER"
    = (if is_set_list (soloists r) then default [] (soloists r) else [])
  ∧ vc_get tags "DATE" = one (date r)
  ∧ vc_get tags "DISCNUMBER" = one (disc r)
  ∧ vc_get tags "TRACKNUMBER" = one (track r).
Proof.
  cbn zeta. unfold record_tags.
  destruct (is_set (movement r)) eqn:Hm; split_and!; by record_tag_values.
Qed.

Lemma snapshot_get_known (tags : vcomment) (file_path : path) (field : string) :
  field ∈ snapshot_fields →
  snapshot_get (get_current_metadata {| h_path := file_path; h_tags := tags |}) field
  = match vc_get tags field with
    | [] => None
    | values => Some (shown values)
    end.
Proof.
  intros Hin. unfold get_current_metadata. cbn [h_tags].
  rewrite snapshot_get_omap, decide_True by done.
  rewrite snapshot_entry_cases. by destruct (vc_get _ _).
Qed.

Ltac known_field :=
  unfold snapshot_fields;
  repeat first [ apply list_elem_of_here | apply list_elem_of_further ].

(** X6: the round trip for any record, complete or not.  After the write,
    the snapshot of the file has an entry for a tag exactly when the field
    it is written from is present (not null, not empty): COMPOSER from
    composer; ALBUM and WORK from work; TITLE from movement, else from work;
    ARTIST and ALBUMARTIST from performers; ORCHESTRA and ENSEMBLE from
    orchestra; PERFORMER from soloists; DATE, DISCNUMBER, TRACKNUMBER from
    date, disc, track. *)
Theorem X6_round_trip_any_record (E : Env) (fs : FS) (file_path : path)
    (old_tags : vcomment) (rest : list byte) (audio : option handle)
    (r : MetadataRecord) :
  fs !! file_path = Some (FlacFile old_tags rest) →
  (∀ a, audio = Some a → h_path a = file_path) →
  ∃ fs' h,
    apply_metadata_to_flac E fs file_path (record_to_json r) audio = (true, fs')
    ∧ validate_flac_file fs' file_path = Valid h
    ∧ let snap := get_current_metadata h in
      let one (o : option string) := if is_set o then Single <$> o else None in
      let joined :=
        if is_set_list (performers r)
        then Single ∘ py_join ", " <$> performers r else None in
      snapshot_get snap "COMPOSER" = one (composer r)
      ∧ snapshot_get snap "ALBUM" = one (work r)
      ∧ snapshot_get snap "WORK" = one (work r)
      ∧ snapshot_get snap "TITLE"
        = (if is_set (movement r) then one (movement r) else one (work r))
      ∧ snapshot_get snap "ARTIST" = joined
      ∧ snapshot_get snap "ALBUMARTIST" = joined
      ∧ snapshot_get snap "ORCHESTRA" = one (orchestra r)
      ∧ snapshot_get snap "ENSEMBLE" = one (orchestra r)
      ∧ snapshot_get snap "PERFORMER"
        = (if is_set_list (soloists r) then shown <$> soloists r else None)
      ∧ snapshot_get snap "DATE" = one (date r)
      ∧ snapshot_get snap "DISCNUMBER" = one (disc r)
      ∧ snapshot_get snap "TRACKNUMBER" = one (track r).
Proof.
  intros Hfile Hpath. eexists _, _. split; [by eapply apply_record|].
  split; [eapply validate_flac; apply lookup_insert_eq|]. cbn zeta.
  rewrite !snapshot_get_known by known_field.
  destruct (record_tags_values r)
    as (-> & -> & -> & -> & -> & -> & -> & -> & -> & -> & -> & ->).
  assert (∀ o, match (if is_set o then [default "" o] else []) with
               | [] => None
               | values => Some (shown values)
               end = (if is_set o then Single <$> o else None)) as Hone.
  { by intros [[|??]|]. }
  rewrite !Hone. split_and!; try done.
  - destruct (is_set (movement r)) eqn:Hm; [|apply Hone].
    by destruct (movement r) as [[|??]|].
  - by destruct (performers r) as [[|??]|].
  - by destruct (performers r) as [[|??]|].
  - by destruct (soloists r) as [[|? [|??]]|].
Qed.

Lemma X6_witness :
  ∃ fs' h,
    apply_metadata_to_flac offline_env tagged_library partita_path
      (record_to_json (record_of_composer "Bach, Johann Sebastian")) None
    = (true, fs')
    ∧ validate_flac_file fs' partita_path = Valid h
    ∧ snapshot_get (get_current_metadata h) "COMPOSER"
      = Some (Single "Bach, Johann Sebastian")
    ∧ snapshot_get (get_current_metadata h) "TITLE" = None.
Proof.
  destruct (X6_round_trip_any_record offline_env tagged_library partita_path
              [("TITLE", "Old title"); ("GENRE", "Baroque")] [x01; x02] None
              (record_of_composer "Bach, Johann Sebastian"))
    as (fs' & h & Happly & Hvalid & Hsnap).
  - reflexivity.
  - intros a Ha. discriminate Ha.
  - exists fs', h. split; [exact Happly|]. split; [exact Hvalid|].
    cbn zeta in Hsnap. split; [apply Hsnap|apply Hsnap].
Defined.

Lemma tag_has_value_get (tags : vcomment) (tag : string) :
  tag_has_value tags tag =
  match vc_get tags tag with
  | [] => false
  | first :: _ => nonblank first
  end.
Proof.
  unfold tag_has_value. destruct (vc_get tags tag) as [|first others] eqn:Hget.
  - apply andb_false_r.
  - assert (vc_contains tags tag = true) as ->
      by (apply vc_contains_get; congruence).
    done.
Qed.

(** The flag of the check, as the conjunction of the four fields. *)
Lemma has_proper_metadata_fields (audio : handle) :
  (has_proper_metadata audio).1 =
  has_value (h_tags audio) ["COMPOSER"]
  && has_value (h_tags audio) ["ALBUM"; "WORK"]
  && has_value (h_tags audio) ["TITLE"]
  && has_value (h_tags audio) ["ARTIST"; "ALBUMARTIST"].
Proof.
  unfold has_proper_metadata, missing_fields, required_fields.
  rewrite !filter_cons, filter_nil. cbn [snd].
  by destruct (has_value _ ["COMPOSER"]), (has_value _ ["ALBUM"; "WORK"]),
    (has_value _ ["TITLE"]), (has_value _ ["ARTIST"; "ALBUMARTIST"]).
Qed.

(** X7: when a written file is complete.  On a file that carries the tags
    the writer stores for a record, the required-metadata check passes
    exactly when the composer, the work, the title (the movement if present,
    else the work) and the joined performers are not blank. *)
Theorem X7_complete_after_write (file_path : path) (r : MetadataRecord) :
  (has_proper_metadata {| h_path := file_path; h_tags := record_tags r |}).1 =
  nonblank (default "" (composer r))
  && nonblank (default "" (work r))
  && nonblank (default "" (if is_set (movement r) then movement r else work r))
  && nonblank (py_join ", " (default [] (performers r))).
Proof.
  rewrite has_proper_metadata_fields. cbn [h_tags]. unfold has_value.
  cbn [existsb]. rewrite !tag_has_value_get.
  destruct (record_tags_values r)
    as (-> & -> & -> & -> & -> & -> & _).
  rewrite !orb_false_r.
  assert (∀ o, match (if is_set o then [default "" o] else []) with
               | [] => false
               | first :: _ => nonblank first
               end = nonblank (default "" o)) as Hone.
  { by intros [[|??]|]. }
  rewrite !Hone.
  assert (∀ b : bool, b || b = b) as Hidem by by intros [].
  rewrite !Hidem. f_equal; [f_equal|].
  - by destruct (is_set (movement r)).
  - by destruct (performers r) as [[|??]|].
Qed.

(** ** The pipeline *)

Lemma complete_file_skipped (E : Env) (dry_run : bool) (fs : FS)
    (file_path : path) (c : counters) :
  complete_file fs file_path →
  process_file_normal E dry_run fs file_path c = (Ok (incr_skipped c), fs).
Proof.
  intros (tags & rest & Hfile & Hcomplete).
  unfold process_file_normal, validate_or_convert.
  rewrite (validate_flac _ _ _ _ Hfile).
  unfold has_proper_metadata. cbn [h_tags]. by rewrite Hcomplete.
Qed.

(** X8: normal mode leaves a complete library alone.  When every
    enumerated file is a valid FLAC file with all required fields, the run,
    dry or live and whatever the service would answer, reaches its summary,
    leaves the file system as it was and counts every file as skipped. *)
Theorem X8_complete_library_is_skipped (E : Env) (dry_run : bool)
    (flac_files : list path) (fs : FS) (c : counters) :
  (∀ file_path, file_path ∈ flac_files → complete_file fs file_path) →
  process_files_normal E dry_run flac_files fs c =
  (Ok {| processed := processed c; verified := verified c; updated := updated c;
         skipped := skipped c + length flac_files; failed := failed c |},
   fs).
Proof.
  revert c. induction flac_files as [|file_path rest IH]; intros c Hcomplete.
  - cbn. destruct c. cbn. by rewrite Nat.add_0_r.
  - cbn [process_files_normal].
    rewrite complete_file_skipped by (apply Hcomplete, list_elem_of_here).
    rewrite IH by (intros f Hf; by apply Hcomplete, list_elem_of_further).
    cbn. by rewrite Nat.add_succ_r.
Qed.

Lemma X8_witness :
  process_files_normal array_reply_env false [partita_path; partita_path]
    complete_library zero_counters
  = (Ok {| processed := 0; verified := 0; updated := 0; skipped := 2; failed := 0 |},
     complete_library).
Proof.
  apply (X8_complete_library_is_skipped array_reply_env false
           [partita_path; partita_path] complete_library zero_counters).
  intros file_path Hin.
  assert (file_path = partita_path) as ->.
  { apply elem_of_cons in Hin as [?|Hin]; [done|].
    apply elem_of_cons in Hin as [?|Hin]; [done|]. by apply elem_of_nil in Hin. }
  eexists _, _. split; reflexivity.
Defined.

Lemma incr_updated_ne (c : counters) :
  incr_updated c ≠ incr_verified c ∧ incr_updated c ≠ incr_skipped c
  ∧ incr_updated c ≠ incr_failed c.
Proof.
  split_and!; intros Heq; apply (f_equal updated) in Heq; cbn in Heq; lia.
Qed.

(** X9: audit mode writes nothing the user has not approved.  When the
    answer to the confirmation is no, or the run is dry, the iteration
    changes the file system by the conversion attempt only; and in a live
    run a declined file is never counted as updated. *)
Theorem X9_audit_needs_approval (E : Env) (dry_run : bool) (fs : FS)
    (file_path : path) (c : counters) :
  dry_run = true ∨ confirm_ask E file_path = false →
  (process_file_audit E dry_run fs file_path c).2
  = (validate_or_convert E fs file_path).2
  ∧ (dry_run = false →
     (process_file_audit E dry_run fs file_path c).1 ≠ Ok (incr_updated c)).
Proof.
  intros Hno. unfold process_file_audit.
  destruct (incr_updated_ne c) as (Hv & Hs & Hf).
  assert (∀ c' (fs' : FS), incr_updated c ≠ c' →
            (Ok c', fs').2 = fs'
            ∧ (dry_run = false → (Ok c', fs').1 ≠ Ok (incr_updated c))) as Hother.
  { intros c' fs' Hne. split; [done|]. cbn. intros _ Heq. congruence. }
  destruct (validate_or_convert E fs file_path) as [[audio|] fs1]; cbn [snd];
    [|by apply Hother].
  destruct (py_truthy _); [|by apply Hother].
  destruct (detect_changes _ _) as [[[|] summary]|e];
    [| by apply Hother | done].
  destruct Hno as [->|Hno]; cbn [negb]; [done|].
  rewrite Hno. destruct dry_run; cbn [negb]; [done|]. by apply Hother.
Qed.

Lemma X9_witness :
  (process_file_audit offline_env false tagged_library partita_path zero_counters).2
  = (validate_or_convert offline_env tagged_library partita_path).2.
Proof.
  apply (X9_audit_needs_approval offline_env false tagged_library partita_path
           zero_counters).
  right. reflexivity.
Defined.



(** X11: a dry run writes no tag.  Under dry run an iteration of either
    mode leaves the file system exactly as the validation step (with its
    conversion attempt) left it; hence a library in which every enumerated
    file already is a valid FLAC file comes out of a dry run unchanged. *)
Theorem X11_dry_run_writes_no_tag (E : Env) (fs : FS) :
  (∀ file_path c,
     (process_file_normal E true fs file_path c).2
     = (validate_or_convert E fs file_path).2
     ∧ (process_file_audit E true fs file_path c).2
       = (validate_or_convert E fs file_path).2)
  ∧ (∀ flac_files c,
       (∀ file_path, file_path ∈ flac_files →
          ∃ tags rest, fs !! file_path = Some (FlacFile tags rest)) →
       (process_files_normal E true flac_files fs c).2 = fs
       ∧ (process_files_audit E true flac_files fs c).2 = fs).
Proof.
  split.
  - intros file_path c. split; [apply dry_run_file_normal|apply dry_run_file_audit].
  - intros flac_files c. apply dry_run_valid_library.
Qed.

(** X12: a run that reaches its summary has put every enumerated file in
    exactly one bucket: in normal mode one of processed, skipped, failed is
    incremented per file and the three add up to the number of files; in
    audit mode one of verified, updated, skipped, failed. *)
Theorem X12_completed_run_counts_each_file (E : Env) (dry_run : bool)
    (flac_files : list path) (fs : FS) :
  (∀ c fs',
     process_files_normal E dry_run flac_files fs zero_counters = (Ok c, fs') →
     (processed c + skipped c + failed c)%nat = length flac_files
     ∧ verified c = 0%nat ∧ updated c = 0%nat)
  ∧ (∀ c fs',
       process_files_audit E dry_run flac_files fs zero_counters = (Ok c, fs') →
       (verified c + updated c + skipped c + failed c)%nat = length flac_files
       ∧ processed c = 0%nat)
  ∧ (∀ file_path c c' fs',
       process_file_normal E dry_run fs file_path c = (Ok c', fs') →
       c' = incr_processed c ∨ c' = incr_skipped c ∨ c' = incr_failed c)
  ∧ (∀ file_path c c' fs',
       process_file_audit E dry_run fs file_path c = (Ok c', fs') →
       c' = incr_verified c ∨ c' = incr_updated c
       ∨ c' = incr_skipped c ∨ c' = incr_failed c).
Proof.
  split_and!.
  - intros c fs' Hrun. apply process_files_normal_total in Hrun as (Ht & Hv & Hu).
    unfold total in Ht. cbn in *. lia.
  - intros c fs' Hrun. apply process_files_audit_total in Hrun as (Ht & Hp).
    unfold total in Ht. cbn in *. lia.
  - intros file_path c c' fs'. apply process_file_normal_bucket.
  - intros file_path c c' fs'. apply process_file_audit_bucket.
Qed.



(** X14: the counters of a dry run are the decisions of the live run.  With
    replies of the record shape, an iteration of normal mode yields the same
    counters dry as live; so does an iteration of audit mode for a file whose
    change the user approves. *)
Theorem X14_dry_run_counters_match_live (E : Env) (fs : FS) (file_path : path)
    (c : counters) :
  record_replies E →
  (process_file_normal E true fs file_path c).1
  = (process_file_normal E false fs file_path c).1
  ∧ (confirm_ask E file_path = true →
     (process_file_audit E true fs file_path c).1
     = (process_file_audit E false fs file_path c).1).
Proof. apply dry_run_counters. Qed.

Lemma X14_witness :
  (process_file_normal record_reply_env true tagged_library partita_path
     zero_counters).1
  = (process_file_normal record_reply_env false tagged_library partita_path
       zero_counters).1.
Proof.
  apply (X14_dry_run_counters_match_live record_reply_env tagged_library
           partita_path zero_counters).
  intros rq metadata Hparse. right. exists reply_record.
  vm_compute in Hparse. injection Hparse as <-. vm_compute. reflexivity.
Defined.



(** ** The statistics scan *)

Lemma missing_fields_NoDup (tags : vcomment) : NoDup (missing_fields tags).
Proof.
  unfold missing_fields, required_fields.
  rewrite !filter_cons, filter_nil. cbn [snd].
  repeat case_decide; cbn [fmap list_fmap fst];
    by apply (bool_decide_unpack _).
Qed.

Lemma missing_fields_named (tags : vcomment) (field : string) :
  field ∈ missing_fields tags → field ∈ ["composer"; "work"; "title"; "artist"].
Proof.
  unfold missing_fields. intros Hin.
  apply list_elem_of_fmap in Hin as (f & -> & Hf).
  apply list_elem_of_filter in Hf as [_ Hf].
  by apply (list_elem_of_fmap_2 fst) in Hf.
Qed.

Lemma count_missing_lookup (counts : gmap string nat) (l : list string)
    (field : string) :
  NoDup l →
  default 0%nat (foldl count_missing counts l !! field)
  = (default 0%nat (counts !! field) + if bool_decide (field ∈ l) then 1 else 0)%nat.
Proof.
  intros Hnd. revert counts.
  induction Hnd as [|x l Hx Hnd IH]; intros counts; cbn [foldl].
  - rewrite bool_decide_eq_false_2 by apply not_elem_of_nil. lia.
  - rewrite IH. unfold count_missing. destruct (decide (field = x)) as [->|Hne].
    + rewrite lookup_insert_eq, (bool_decide_eq_false_2 _ Hx),
        bool_decide_eq_true_2 by apply list_elem_of_here. cbn. lia.
    + rewrite lookup_insert_ne by done. f_equal.
      rewrite (bool_decide_ext (field ∈ x :: l) (field ∈ l)); [done|].
      rewrite elem_of_cons. naive_solver.
Qed.

Lemma count_missing_positive (counts : gmap string nat) (l : list string) :
  (∀ field n, counts !! field = Some n → (0 < n)%nat) →
  ∀ field n, foldl count_missing counts l !! field = Some n → (0 < n)%nat.
Proof.
  revert counts. induction l as [|x l IH]; intros counts Hpos; [done|].
  cbn [foldl]. apply IH. intros field n. unfold count_missing.
  destruct (decide (field = x)) as [->|Hne].
  - rewrite lookup_insert_eq. intros [= <-]. lia.
  - rewrite lookup_insert_ne by done. apply Hpos.
Qed.

Lemma is_complete_lacks (fs : FS) (field : string) (file_path : path) :
  lacks_field fs field file_path = true → is_complete fs file_path = false.
Proof.
  unfold lacks_field, is_complete.
  destruct (validate_flac_file fs file_path) as [audio|]; [|done].
  intros Hin%bool_decide_eq_true. apply not_true_is_false.
  rewrite has_proper_metadata_flag. intros Hnil. rewrite Hnil in Hin.
  by apply elem_of_nil in Hin.
Qed.

(** The effect of one iteration on each tally. *)
Lemma statistics_step_tallies (st_size : content → nat) (fs : FS) (s : stats)
    (file_path : path) :
  let s' := statistics_step st_size fs s file_path in
  with_metadata s'
  = (with_metadata s + if is_complete fs file_path then 1 else 0)%nat
  ∧ without_metadata s'
    = (without_metadata s + if is_complete fs file_path then 0 else 1)%nat
  ∧ (∀ field,
       default 0%nat (missing_fields_count s' !! field)
       = (default 0%nat (missing_fields_count s !! field)
          + if lacks_field fs field file_path then 1 else 0)%nat)
  ∧ ((∀ field n, missing_fields_count s !! field = Some n → (0 < n)%nat) →
     ∀ field n, missing_fields_count s' !! field = Some n → (0 < n)%nat)
  ∧ composers s'
    = match first_composer fs file_path with
      | Some name => {[name]} ∪ composers s
      | None => composers s
      end.
Proof.
  cbn zeta. unfold statistics_step, is_complete, lacks_field, first_composer.
  destruct (validate_flac_file fs file_path) as [audio|why]; cbn.
  - pose proof (has_proper_metadata_missing audio) as Hmissing.
    pose proof (has_proper_metadata_flag audio) as Hflag.
    destruct (has_proper_metadata audio) as [has_meta missing]. cbn in *.
    subst missing. split_and!.
    + destruct has_meta; lia.
    + destruct has_meta; lia.
    + intros field. destruct has_meta.
      * rewrite (proj1 Hflag eq_refl).
        rewrite bool_decide_eq_false_2 by apply not_elem_of_nil. lia.
      * apply count_missing_lookup, missing_fields_NoDup.
    + intros Hpos. destruct has_meta; [done|]. by apply count_missing_positive.
    + unfold add_composer.
      pose proof (vc_contains_get (h_tags audio) "COMPOSER") as Hget.
      destruct (vc_contains _ _), (vc_get _ _); naive_solver.
  - split_and!; [lia|lia| |done|done]. intros field. lia.
Qed.

Lemma statistics_fold (st_size : content → nat) (fs : FS)
    (flac_files : list path) (s0 : stats) :
  let s := foldl (statistics_step st_size fs) s0 flac_files in
  with_metadata s
  = (with_metadata s0
     + length (filter (λ p, Is_true (is_complete fs p)) flac_files))%nat
  ∧ (with_metadata s + without_metadata s)%nat
    = (with_metadata s0 + without_metadata s0 + length flac_files)%nat
  ∧ (∀ field,
       default 0%nat (missing_fields_count s !! field)
       = (default 0%nat (missing_fields_count s0 !! field)
          + length (filter (λ p, Is_true (lacks_field fs field p)) flac_files))%nat)
  ∧ ((∀ field n, missing_fields_count s0 !! field = Some n → (0 < n)%nat) →
     ∀ field n, missing_fields_count s !! field = Some n → (0 < n)%nat)
  ∧ composers s = list_to_set (omap (first_composer fs) flac_files) ∪ composers s0.
Proof.
  cbn zeta. revert s0.
  induction flac_files as [|file_path flac_files IH]; intros s0.
  - cbn. split_and!; [lia|lia|intros; lia|done|].
    apply leibniz_equiv. set_solver.
  - cbn [foldl].
    destruct (IH (statistics_step st_size fs s0 file_path))
      as (Hwith & Hsum & Hmiss & Hpos & Hcomp).
    destruct (statistics_step_tallies st_size fs s0 file_path)
      as (Hwith1 & Hwithout1 & Hmiss1 & Hpos1 & Hcomp1).
    split_and!.
    + rewrite Hwith, Hwith1, filter_cons.
      destruct (is_complete fs file_path); case_decide; try done; cbn; lia.
    + rewrite Hsum, Hwith1, Hwithout1. cbn [length].
      destruct (is_complete fs file_path); lia.
    + intros field. rewrite Hmiss, Hmiss1, filter_cons.
      destruct (lacks_field fs field file_path); case_decide; try done; cbn; lia.
    + intros Hpos0. by apply Hpos, Hpos1.
    + rewrite Hcomp, Hcomp1. cbn [omap list_omap].
      destruct (first_composer fs file_path);
        apply leibniz_equiv; set_solver.
Qed.

Lemma filter_length_le {A} (P Q : A → Prop) `{!∀ x, Decision (P x)}
    `{!∀ x, Decision (Q x)} (l : list A) :
  (∀ x, P x → Q x) → (length (filter P l) ≤ length (filter Q l))%nat.
Proof.
  intros HPQ. induction l as [|x l IH]; [done|].
  rewrite !filter_cons. repeat case_decide; cbn; try lia. naive_solver.
Qed.

Lemma filter_length_complement {A} (P : A → Prop) `{!∀ x, Decision (P x)}
    (l : list A) :
  (length (filter P l) + length (filter (λ x, ¬ P x) l))%nat = length l.
Proof.
  induction l as [|x l IH]; [done|].
  rewrite !filter_cons. repeat case_decide; cbn; try lia; done.
Qed.

(** X16: the tallies of the statistics scan.  The number shown as
    complete is the number of enumerated files that validate and miss no
    required field; complete and missing add up to the number of files; the
    breakdown counts, for each field, the valid files that miss it, so it
    lists only the four required fields, each with a count between 1 and the
    number shown as missing. *)
Theorem X16_statistics_tallies (st_size : content → nat) (fs : FS)
    (flac_files : list path) :
  let s := statistics st_size fs flac_files in
  with_metadata s = length (filter (λ p, Is_true (is_complete fs p)) flac_files)
  ∧ (with_metadata s + without_metadata s)%nat = length flac_files
  ∧ (∀ field,
       default 0%nat (missing_fields_count s !! field)
       = length (filter (λ p, Is_true (lacks_field fs field p)) flac_files))
  ∧ (∀ field n,
       missing_fields_count s !! field = Some n →
       field ∈ ["composer"; "work"; "title"; "artist"]
       ∧ (0 < n ≤ without_metadata s)%nat).
Proof.
  cbn zeta. unfold statistics.
  destruct (statistics_fold st_size fs flac_files zero_stats)
    as (Hwith & Hsum & Hmiss & Hpos & _).
  cbn in Hwith, Hsum, Hmiss, Hpos.
  split_and!; [done|done|done|].
  intros field n Hn. pose proof (Hmiss field) as Hcount.
  rewrite Hn, lookup_empty in Hcount. cbn in Hcount.
  assert (0 < n)%nat as Hn0 by (eapply Hpos; [intros ??; by rewrite lookup_empty|done]).
  split_and!; [|done|].
  - assert (∃ p, p ∈ filter (λ p, Is_true (lacks_field fs field p)) flac_files)
      as [p Hp].
    { destruct (filter (λ p, Is_true (lacks_field fs field p)) flac_files)
        as [|p l]; [cbn in Hcount; lia|]. exists p. apply list_elem_of_here. }
    apply list_elem_of_filter in Hp as [Hp _]. unfold lacks_field in Hp.
    destruct (validate_flac_file fs p) as [audio|]; [|done].
    apply bool_decide_unpack in Hp. by apply missing_fields_named in Hp.
  - rewrite Hcount.
    pose proof (filter_length_complement (λ p, Is_true (is_complete fs p)) flac_files)
      as Hcompl.
    cbv beta in Hcompl.
    etrans; [apply (filter_length_le _ (λ p, ¬ Is_true (is_complete fs p)))|lia].
    intros p Hp. apply Is_true_true, is_complete_lacks in Hp. rewrite Hp.
    by intros [].
Qed.

(** X17: the composers of the statistics scan are the first COMPOSER values
    of the enumerated files that validate, each counted once; so the number
    of unique composers never exceeds the number of files. *)
Theorem X17_statistics_composers (st_size : content → nat) (fs : FS)
    (flac_files : list path) :
  let s := statistics st_size fs flac_files in
  (∀ name, name ∈ composers s
           ↔ ∃ file_path, file_path ∈ flac_files
                          ∧ first_composer fs file_path = Some name)
  ∧ (size (composers s) ≤ length flac_files)%nat.
Proof.
  cbn zeta. unfold statistics.
  destruct (statistics_fold st_size fs flac_files zero_stats)
    as (_ & _ & _ & _ & ->). cbn [composers zero_stats].
  rewrite (right_id_L ∅ (∪)). split.
  - intros name. rewrite elem_of_list_to_set, list_elem_of_omap. naive_solver.
  - induction flac_files as [|file_path flac_files IH]; cbn [omap list_omap length].
    + by rewrite list_to_set_nil, size_empty.
    + destruct (first_composer fs file_path) as [name|]; [|lia].
      rewrite list_to_set_cons.
      rewrite size_union_alt, size_singleton.
      match goal with
      | |- context [size (?Y ∖ ?X)] =>
          assert (size (Y ∖ X) ≤ size Y)%nat by (apply subseteq_size; set_solver)
      end. lia.
Qed.

(** ** Statistics and normal mode *)

Lemma validate_flac_file_ext (fs fs' : FS) (file_path : path) :
  fs' !! file_path = fs !! file_path →
  validate_flac_file fs' file_path = validate_flac_file fs file_path.
Proof. intros Heq. unfold validate_flac_file. by rewrite Heq. Qed.

(** The writer touches no file but the one the handle was loaded from. *)
Lemma apply_metadata_frame (E : Env) (fs : FS) (file_path : path)
    (metadata : json) (audio : handle) (q : path) :
  q ≠ h_path audio →
  (apply_metadata_to_flac E fs file_path metadata (Some audio)).2 !! q = fs !! q.
Proof.
  intros Hne. unfold apply_metadata_to_flac.
  destruct (as_dict metadata) as [items|]; cbn [mbind res_bind snd]; [|done].
  destruct (new_tags E items) as [tags|]; cbn [mbind res_bind snd]; [|done].
  unfold save. destruct (mapM checked_value tags); [|done].
  destruct (fs !! h_path audio) as [[|]|]; cbn [snd]; try done.
  by rewrite lookup_insert_ne.
Qed.

(** Without ffmpeg, an iteration of normal mode counts a skip exactly for
    a complete file, and changes no other file. *)
Lemma process_file_normal_offline (E : Env) (dry_run : bool) (fs fs' : FS)
    (file_path : path) (c c' : counters) :
  which_ffmpeg E = false →
  process_file_normal E dry_run fs file_path c = (Ok c', fs') →
  (∀ q, q ≠ file_path → fs' !! q = fs !! q)
  ∧ skipped c' = (skipped c + if is_complete fs file_path then 1 else 0)%nat.
Proof.
  intros Hoff. unfold process_file_normal, validate_or_convert, is_complete,
    convert_to_flac. rewrite Hoff. cbn [negb].
  destruct (validate_flac_file fs file_path) as [audio|why] eqn:Hvalid.
  - apply validate_valid_inv in Hvalid as [Hpath _].
    destruct (has_proper_metadata audio) as [[] missing]; cbn [fst].
    + intros [= <- <-]. split; [done|]. cbn. lia.
    + destruct (py_truthy _); [|intros [= <- <-]; split; [done|cbn; lia]].
      destruct (display_metadata_table _); [|done].
      destruct dry_run; cbn [negb]; [intros [= <- <-]; split; [done|cbn; lia]|].
      pose proof (apply_metadata_frame E fs file_path
        (get_metadata_from_openrouter E file_path.2
           (glob_flac_names fs file_path.1) None) audio) as Hframe.
      rewrite Hpath in Hframe.
      destruct (apply_metadata_to_flac _ _ _ _ _) as [[] fs1]; cbn [snd] in Hframe;
        intros [= <- <-]; (split; [done|cbn; lia]).
  - intros [= <- <-]. split; [done|]. cbn. lia.
Qed.

Lemma process_files_normal_offline (E : Env) (dry_run : bool) (fs : FS)
    (flac_files : list path) :
  which_ffmpeg E = false →
  NoDup flac_files →
  ∀ cur c c' fs',
    (∀ q, q ∈ flac_files → cur !! q = fs !! q) →
    process_files_normal E dry_run flac_files cur c = (Ok c', fs') →
    skipped c'
    = (skipped c + length (filter (λ p, Is_true (is_complete fs p)) flac_files))%nat.
Proof.
  intros Hoff Hnd. induction Hnd as [|file_path flac_files Hnotin Hnd IH];
    intros cur c c' fs' Hsame; cbn [process_files_normal].
  - intros [= <- _]. cbn. lia.
  - destruct (process_file_normal E dry_run cur file_path c) as [[c1|e] fs1] eqn:Hstep;
      [|done].
    apply process_file_normal_offline in Hstep as [Hframe Hskip]; [|done].
    intros Hrest. apply IH in Hrest.
    + rewrite Hrest, Hskip, filter_cons.
      assert (is_complete cur file_path = is_complete fs file_path) as ->.
      { unfold is_complete. rewrite (validate_flac_file_ext fs cur); [done|].
        apply Hsame, list_elem_of_here. }
      destruct (is_complete fs file_path); case_decide; try done; cbn; lia.
    + intros q Hq. rewrite Hframe by (by intros ->).
      by apply Hsame, list_elem_of_further.
Qed.

(** ** show_menu: the path shown *)

Lemma str_drop_length (n : nat) (s : string) :
  String.length (str_drop n s) = (String.length s - n)%nat.
Proof.
  revert s. induction n as [|n IH]; intros [|c s]; cbn; done.
Qed.

Lemma str_drop_tail (n : nat) (s : string) :
  ∃ front, s = front +:+ str_drop n s ∧ String.length front = (n `min` String.length s)%nat.
Proof.
  revert s. induction n as [|n IH]; intros s.
  - by exists "".
  - destruct s as [|c s]; [by exists ""|].
    destruct (IH s) as (front & Hs & Hlen). exists (String c front).
    cbn [str_drop]. rewrite str_app_cons, <- Hs. cbn. by rewrite Hlen.
Qed.

(** X19: the folder path shown in the menu never exceeds 50 characters:
    a path of at most 50 characters is shown as it is, a longer one as three
    dots followed by its last 47 characters. *)
Theorem X19_display_path_fits (folder_path : string) :
  (String.length (display_path folder_path) ≤ 50)%nat
  ∧ ((String.length folder_path ≤ 50)%nat → display_path folder_path = folder_path)
  ∧ ((50 < String.length folder_path)%nat →
     ∃ front back,
       folder_path = front +:+ back
       ∧ String.length back = 47%nat
       ∧ display_path folder_path = "..." +:+ back).
Proof.
  unfold display_path.
  destruct (Nat.leb_spec (String.length folder_path) 50) as [Hle|Hgt].
  - split_and!; [done|done|lia].
  - split_and!.
    + rewrite str_length_app, str_drop_length. cbn. lia.
    + lia.
    + intros _.
      destruct (str_drop_tail (String.length folder_path - 47) folder_path)
        as (front & Heq & _).
      exists front, (str_drop (String.length folder_path - 47) folder_path).
      split_and!; [done| |done]. rewrite str_drop_length. lia.
Qed.

(** ** Scanning the library *)

Lemma endswith_cases (s : string) :
  endswith s ".flac" = true → endswith s ".FLAC" = true → False.
Proof.
  induction s as [|c s IH]; [done|].
  cbn [endswith].
  destruct (String.eqb_spec (String c s) ".flac") as [[= -> ->]|_]; [done|].
  destruct (String.eqb_spec (String c s) ".FLAC") as [[= -> ->]|_]; [done|].
  done.
Qed.

Lemma rglob_spec (fs : FS) (folder ext : string) (p : path) :
  p ∈ rglob fs folder ext
  ↔ is_Some (fs !! p) ∧ under_folder folder p.1 = true ∧ endswith p.2 ext = true.
Proof.
  unfold rglob. rewrite list_elem_of_filter, list_elem_of_fmap.
  rewrite andb_True, !Is_true_true. split.
  - intros [[Hu He] ([q c] & -> & Hin)]. apply elem_of_map_to_list in Hin.
    by eauto.
  - intros ([c Hc] & Hu & He). split; [done|]. exists (p, c).
    split; [done|]. by apply elem_of_map_to_list.
Qed.

Lemma rglob_NoDup (fs : FS) (folder ext : string) : NoDup (rglob fs folder ext).
Proof. apply NoDup_filter, NoDup_fst_map_to_list. Qed.

Lemma scan_NoDup (fs : FS) (folder_path : string) : NoDup (scan fs folder_path).
Proof.
  unfold scan. apply NoDup_app. split_and!; [apply rglob_NoDup| |apply rglob_NoDup].
  intros p (_ & _ & Hl)%rglob_spec (_ & _ & Hu)%rglob_spec.
  by apply (endswith_cases p.2).
Qed.


(** X18: the statistics predict normal mode.  When ffmpeg is not
    installed, a normal-mode run over a folder that reaches its summary, dry
    or live, has skipped exactly as many files as the statistics view of the
    same folder reports with complete metadata, and its processed, skipped
    and failed files are as many as the statistics view counts in all. *)
Theorem X18_statistics_predict_skips (E : Env) (st_size : content → nat)
    (dry_run : bool) (fs fs' : FS) (folder_path : string) (c : counters) :
  which_ffmpeg E = false →
  process_folder_normal E fs folder_path dry_run = (Ok (Some c), fs') →
  ∃ s, show_statistics st_size fs folder_path = Some s
       ∧ skipped c = with_metadata s
       ∧ (processed c + skipped c + failed c)%nat
         = (with_metadata s + without_metadata s)%nat.
Proof.
  intros Hoff. unfold process_folder_normal, show_statistics.
  pose proof (scan_NoDup fs folder_path) as Hnd.
  destruct (scan fs folder_path) as [|file_path flac_files]; [done|].
  destruct (process_files_normal _ _ _ _ _) as [[c'|e] fs1] eqn:Hrun; [|done].
  intros [= -> ->]. eexists. split; [done|].
  destruct (statistics_fold st_size fs (file_path :: flac_files) zero_stats)
    as (Hwith & Hsum & _).
  unfold statistics. rewrite Hsum, Hwith.
  pose proof (process_files_normal_total _ _ _ _ _ _ _ Hrun) as (Htotal & Hv & Hu).
  apply (process_files_normal_offline E dry_run fs) in Hrun; [|done..].
  split; [by rewrite Hrun|]. unfold total in Htotal. cbn in *. lia.
Qed.

Lemma X18_witness :
  ∃ s, show_statistics (λ _, 0%nat) tagged_library "/music" = Some s
       ∧ skipped (incr_processed zero_counters) = with_metadata s
       ∧ (processed (incr_processed zero_counters)
          + skipped (incr_processed zero_counters)
          + failed (incr_processed zero_counters))%nat
         = (with_metadata s + without_metadata s)%nat.
Proof.
  apply (X18_statistics_predict_skips record_reply_env (λ _, 0%nat) false
           tagged_library
           (process_folder_normal record_reply_env tagged_library "/music" false).2
           "/music" (incr_processed zero_counters)).
  - reflexivity.
  - apply pair_from_fst. vm_compute. reflexivity.
Defined.

(** ** The converter: what every outcome preserves *)

(** X21: a conversion never loses the original.  Whatever the outcome,
    the content the source path held before the call is afterwards either
    still at the source path or at one of the backup names. *)
Theorem X21_conversion_keeps_original (E : Env) (fs : FS) (file_path : path)
    (original : content) :
  fs !! file_path = Some original →
  let fs' := (convert_to_flac E fs file_path).2 in
  fs' !! file_path = Some original
  ∨ ∃ k, fs' !! backup_candidate E file_path (detect_actual_format fs file_path) k
         = Some original.
Proof.
  intros Hsrc. cbn zeta.
  destruct (convert_cases E fs file_path) as [[_ Hsame]|[Hswap _]].
  - left. rewrite Hsame; [done|]. intros Heq. by apply (temp_output_ne file_path).
  - right. destruct Hswap as (original' & converted & k & Hsrc' & _ & _ & Hbak & _).
    exists k. by rewrite Hbak, <- Hsrc, Hsrc'.
Qed.

Lemma X21_witness :
  let fs' := (convert_to_flac transcoding_env mislabeled_library song_path).2 in
  fs' !! song_path = Some (Raw mp3_bytes)
  ∨ ∃ k, fs' !! backup_candidate transcoding_env song_path
                  (detect_actual_format mislabeled_library song_path) k
         = Some (Raw mp3_bytes).
Proof.
  apply (X21_conversion_keeps_original transcoding_env mislabeled_library
           song_path (Raw mp3_bytes)).
  vm_compute. reflexivity.
Defined.



(** ** The text handed to the JSON parser *)

(** The search skips text that holds no backtick. *)
Lemma search_json_fence_skip (before text : string) :
  no_backtick before = true →
  search_json_fence (before +:+ text) = search_json_fence text.
Proof.
  induction before as [|c before IH]; intros Hnb; [done|].
  cbn in Hnb. apply andb_true_iff in Hnb as [Hc Hnb]. apply negb_true_iff in Hc.
  rewrite str_app_cons. cbn [search_json_fence].
  assert (startswith (String c (before +:+ text)) json_fence = false) as ->.
  { unfold startswith, json_fence, is_backtick in *. rewrite prefix_cons.
    destruct (ascii_dec _ c) as [<-|]; [|done]. by rewrite Ascii.eqb_refl in Hc. }
  by apply IH.
Qed.

Lemma search_json_fence_block (ws1 body ws2 rest : string) :
  all_space ws1 = true → stripped body → no_backtick body = true →
  all_space ws2 = true →
  search_json_fence (json_fence +:+ ws1 +:+ body +:+ ws2 +:+ fence +:+ rest)
  = Some body.
Proof.
  intros Hws1 Hbody Hnb Hws2.
  change (json_fence +:+ ws1 +:+ body +:+ ws2 +:+ fence +:+ rest)
    with (String backtick (String backtick (String backtick (String "j" (String "s"
          (String "o" (String "n" (ws1 +:+ body +:+ ws2 +:+ fence +:+ rest)))))))).
  cbn [search_json_fence].
  change (String backtick (String backtick (String backtick (String "j" (String "s"
          (String "o" (String "n" (ws1 +:+ body +:+ ws2 +:+ fence +:+ rest))))))))
    with (json_fence +:+ ws1 +:+ body +:+ ws2 +:+ fence +:+ rest).
  rewrite startswith_app.
  change (str_drop 7 (json_fence +:+ ws1 +:+ body +:+ ws2 +:+ fence +:+ rest))
    with (ws1 +:+ body +:+ ws2 +:+ fence +:+ rest).
  by rewrite spaces_then_group_body.
Qed.

Lemma str_app_empty (s : string) : s +:+ "" = s.
Proof. induction s as [|c s IH]; [done|]. by rewrite str_app_cons, IH. Qed.

Lemma no_backtick_lstrip (p : ascii → bool) (s : string) :
  no_backtick s = true → no_backtick (lstrip_by p s) = true.
Proof.
  induction s as [|c s IH]; [done|]. cbn. intros [Hc Hs]%andb_true_iff.
  destruct (p c); [by apply IH|]. cbn. by rewrite Hc, Hs.
Qed.

Lemma no_backtick_rstrip (p : ascii → bool) (s : string) :
  no_backtick s = true → no_backtick (rstrip_by p s) = true.
Proof.
  induction s as [|c s IH]; [done|]. cbn. intros [Hc Hs]%andb_true_iff.
  destruct (is_empty _ && p c); [done|]. cbn. by rewrite Hc, IH.
Qed.

Lemma extract_plain_text (text : string) :
  no_backtick text = true → extract_json_text text = text.
Proof.
  intros Hnb. unfold extract_json_text.
  rewrite <- (str_app_empty text) at 1.
  rewrite search_json_fence_skip by done. cbn [search_json_fence].
  destruct text as [|c text]; [done|].
  cbn in Hnb. apply andb_true_iff in Hnb as [Hc _]. apply negb_true_iff in Hc.
  by rewrite startswith_fence_cons.
Qed.

(** X23: a reply without a backtick reaches the parser as it is, trimmed:
    the derivation returns what json.loads makes of the trimmed reply, and
    None when json.loads rejects it. *)
Theorem X23_plain_reply_is_parsed_trimmed (E : Env) (filename : string)
    (context_files : list string) (existing : option snapshot) (text : string) :
  chat_completion E (build_request filename context_files existing) = Ok (Some text) →
  no_backtick text = true →
  get_metadata_from_openrouter E filename context_files existing
  = match json_loads E (py_strip text) with
    | Ok metadata => metadata
    | Raise _ => JNull
    end.
Proof.
  intros Hreply Hnb. rewrite get_metadata_cases, Hreply.
  rewrite extract_plain_text; [done|].
  by apply no_backtick_rstrip, no_backtick_lstrip.
Qed.

Lemma X23_witness :
  get_metadata_from_openrouter record_reply_env "partita.flac" [] None
  = record_to_json reply_record.
Proof.
  rewrite (X23_plain_reply_is_parsed_trimmed record_reply_env "partita.flac" []
             None reply_text).
  - vm_compute. reflexivity.
  - reflexivity.
  - vm_compute. reflexivity.
Defined.

(** X24: a reply that holds a json code block after some prose: when the
    text before the opening fence holds no backtick, the text handed to the
    parser is the body of the block, without the white space around it and
    whatever follows the closing fence. *)
Theorem X24_json_block_after_prose (before ws1 body ws2 rest : string) :
  no_backtick before = true →
  all_space ws1 = true → stripped body → no_backtick body = true →
  all_space ws2 = true →
  extract_json_text
    (before +:+ json_fence +:+ ws1 +:+ body +:+ ws2 +:+ fence +:+ rest) = body.
Proof.
  intros Hbefore Hws1 Hbody Hnb Hws2. unfold extract_json_text.
  by rewrite search_json_fence_skip, search_json_fence_block.
Qed.

Lemma X24_witness :
  extract_json_text
    ("Here is the metadata: " +:+ json_fence +:+ String "010" "" +:+ "[1]"
     +:+ String "010" "" +:+ fence +:+ " Let me know.") = "[1]".
Proof.
  apply (X24_json_block_after_prose "Here is the metadata: " (String "010" "")
           "[1]" (String "010" "") " Let me know."); reflexivity.
Defined.

Lemma endswith_app (s suf : string) : endswith (s +:+ suf) suf = true.
Proof.
  induction s as [|c s IH].
  - change ("" +:+ suf) with suf. destruct suf; cbn [endswith];
      by rewrite String.eqb_refl.
  - rewrite str_app_cons. cbn [endswith]. rewrite IH. by destruct (String.eqb _ _).
Qed.

Lemma rstrip_backticks (inner : string) :
  no_backtick inner = true →
  rstrip_by is_backtick (inner +:+ fence) = inner.
Proof.
  induction inner as [|c inner IH]; intros Hnb; [done|].
  cbn in Hnb. apply andb_true_iff in Hnb as [Hc Hnb]. apply negb_true_iff in Hc.
  rewrite str_app_cons. cbn [rstrip_by]. rewrite (IH Hnb), Hc.
  by rewrite andb_false_r.
Qed.

Lemma strip_backticks (inner : string) :
  no_backtick inner = true →
  strip_by is_backtick (fence +:+ inner +:+ fence) = inner.
Proof.
  intros Hnb. unfold strip_by.
  assert (lstrip_by is_backtick (fence +:+ inner +:+ fence)
          = match inner with "" => "" | _ => inner +:+ fence end) as ->.
  { destruct inner as [|c inner]; [done|].
    cbn in Hnb. apply andb_true_iff in Hnb as [Hc Hnb]. apply negb_true_iff in Hc.
    change (fence +:+ String c inner +:+ fence)
      with (String backtick (String backtick (String backtick
              (String c inner +:+ fence)))).
    rewrite str_app_cons. cbn [lstrip_by]. by rewrite Hc. }
  destruct inner as [|c inner]; [done|]. by apply rstrip_backticks.
Qed.

Lemma startswith_json_app (inner : string) :
  no_backtick inner = true → startswith inner "json" = false →
  startswith (inner +:+ fence) "json" = false.
Proof.
  unfold startswith. intros Hnb Hj.
  destruct inner as [|a inner]; [done|].
  rewrite str_app_cons, prefix_cons in *. destruct (ascii_dec _ a); [|done].
  destruct inner as [|b inner]; [done|].
  rewrite str_app_cons, prefix_cons in *. destruct (ascii_dec _ b); [|done].
  destruct inner as [|c inner]; [done|].
  rewrite str_app_cons, prefix_cons in *. destruct (ascii_dec _ c); [|done].
  destruct inner as [|d inner]; [done|].
  rewrite str_app_cons, prefix_cons in *. destruct (ascii_dec _ d); [|done].
  by destruct inner.
Qed.

Lemma prefix_tick (inner pre : string) :
  no_backtick inner = true →
  String.prefix (String backtick (String "j" pre)) (inner +:+ fence) = false
  ∧ String.prefix (String backtick (String backtick (String "j" pre)))
      (inner +:+ fence) = false.
Proof.
  intros Hnb. destruct inner as [|c inner]; [done|].
  cbn in Hnb. apply andb_true_iff in Hnb as [Hc _]. apply negb_true_iff in Hc.
  unfold is_backtick in Hc.
  rewrite str_app_cons, !prefix_cons.
  destruct (ascii_dec backtick c) as [<-|]; [|done].
  by rewrite Ascii.eqb_refl in Hc.
Qed.

Lemma search_bare_fence (inner : string) :
  no_backtick inner = true → startswith inner "json" = false →
  search_json_fence (fence +:+ inner +:+ fence) = None.
Proof.
  intros Hnb Hj.
  assert (search_json_fence (inner +:+ fence) = None) as Hrest.
  { by rewrite search_json_fence_skip. }
  destruct (prefix_tick inner "son" Hnb) as [H1 H2].
  change (fence +:+ inner +:+ fence)
    with (String backtick (String backtick (String backtick (inner +:+ fence)))).
  cbn [search_json_fence]. rewrite Hrest. unfold startswith, json_fence.
  change "```json"
    with (String backtick (String backtick (String backtick (String "j" "son")))).
  rewrite !(prefix_cons backtick backtick).
  destruct (ascii_dec backtick backtick) as [_|]; [|done].
  rewrite H1, H2.
  fold (startswith (inner +:+ fence) "json").
  by rewrite startswith_json_app.
Qed.

(** X25: a reply wrapped in bare triple backticks.  When the text between
    the two fences holds no backtick and does not begin with json, the
    parser receives that text trimmed, and without a leading word json (and
    the white space after it) when the trimmed text begins with it. *)
Theorem X25_bare_fence_is_unwrapped (inner : string) :
  no_backtick inner = true → startswith inner "json" = false →
  extract_json_text (fence +:+ inner +:+ fence)
  = if startswith (py_strip inner) "json"
    then py_strip (str_drop 4 (py_strip inner))
    else py_strip inner.
Proof.
  intros Hnb Hj. unfold extract_json_text.
  rewrite search_bare_fence by done.
  rewrite startswith_app.
  rewrite <- str_app_assoc, endswith_app, str_app_assoc. cbn [andb].
  by rewrite strip_backticks.
Qed.

Lemma X25_witness :
  extract_json_text
    (fence +:+ (String "010" "" +:+ "json" +:+ String "010" "" +:+ "[1]"
                +:+ String "010" "") +:+ fence) = "[1]".
Proof.
  rewrite (X25_bare_fence_is_unwrapped
             (String "010" "" +:+ "json" +:+ String "010" "" +:+ "[1]"
              +:+ String "010" "")); reflexivity.
Defined.

(** ** The reconciler on arbitrary replies *)

Lemma compare_pair_comparable (items : list (string * json)) (old : snapshot)
    (new_key old_key : string) :
  if comparable (dict_get items new_key)
  then ∃ found, compare_pair items old (new_key, old_key) = Ok found
  else compare_pair items old (new_key, old_key) = Raise AttributeError.
Proof.
  unfold compare_pair, comparable, or_empty.
  destruct (py_truthy (dict_get items new_key)) eqn:Htruthy; cbn [negb orb].
  - rewrite Htruthy. destruct (dict_get items new_key); try done.
    destruct (negb _); eauto.
  - cbn. eauto.
Qed.

(** X26: when the reconciler raises.  The comparison of audit mode raises
    exactly when the new metadata is not a dict, or one of its fields
    composer, work, movement holds a value that is neither empty nor a
    string (a list or a number, say); it raises no exception other than
    AttributeError, and in every other case it returns its flag and
    summary. *)
Theorem X26_reconciler_raises_on_non_strings (new_metadata : json)
    (current_metadata : snapshot) :
  (detect_changes new_metadata current_metadata = Raise AttributeError
   ↔ (∀ items, new_metadata ≠ JObj items)
     ∨ ∃ items key,
         new_metadata = JObj items
         ∧ key ∈ ["composer"; "work"; "movement"]
         ∧ comparable (dict_get items key) = false)
  ∧ (∀ e, detect_changes new_metadata current_metadata = Raise e →
          e = AttributeError)
  ∧ (∀ items,
       new_metadata = JObj items →
       comparable (dict_get items "composer") = true →
       comparable (dict_get items "work") = true →
       comparable (dict_get items "movement") = true →
       ∃ changed summary,
         detect_changes new_metadata current_metadata = Ok (changed, summary)).
Proof.
  unfold detect_changes.
  destruct new_metadata as [| | | | |items];
    try (split_and!; [split; [left; by intros|done] | by intros e [= <-] | by intros]).
  cbn [as_dict mbind res_bind comparisons mapM].
  pose proof (compare_pair_comparable items current_metadata "composer" "COMPOSER") as Hc.
  pose proof (compare_pair_comparable items current_metadata "work" "ALBUM") as Hw.
  pose proof (compare_pair_comparable items current_metadata "movement" "TITLE") as Hm.
  assert (∀ key, key ∈ ["composer"; "work"; "movement"] →
            key = "composer" ∨ key = "work" ∨ key = "movement") as Hkeys.
  { intros key Hin. repeat (apply elem_of_cons in Hin as [->|Hin]; [by eauto|]).
    by apply elem_of_nil in Hin. }
  destruct (comparable (dict_get items "composer")) eqn:Ec.
  2:{ rewrite Hc. cbn [mbind res_bind]. split_and!; [|by intros e [= <-]|by intros ? [= <-]; congruence].
      split; [|done]. intros _. right. exists items, "composer".
      split_and!; [done|apply list_elem_of_here|done]. }
  destruct Hc as [fc ->]. cbn [mbind res_bind].
  destruct (comparable (dict_get items "work")) eqn:Ew.
  2:{ rewrite Hw. cbn [mbind res_bind]. split_and!; [|by intros e [= <-]|by intros ? [= <-]; congruence].
      split; [|done]. intros _. right. exists items, "work".
      split_and!; [done|apply list_elem_of_further, list_elem_of_here|done]. }
  destruct Hw as [fw ->]. cbn [mbind res_bind].
  destruct (comparable (dict_get items "movement")) eqn:Em.
  2:{ rewrite Hm. cbn [mbind res_bind]. split_and!; [|by intros e [= <-]|by intros ? [= <-]; congruence].
      split; [|done]. intros _. right. exists items, "movement".
      split_and!; [done|do 2 apply list_elem_of_further; apply list_elem_of_here|done]. }
  destruct Hm as [fm ->]. cbn [mbind res_bind mret res_ret].
  split_and!; [|done|by eauto].
  split; [done|]. intros [Hno|(items' & key & [= <-] & Hin & Hbad)].
  - by destruct (Hno items).
  - apply Hkeys in Hin as [->|[->| ->]]; congruence.
Qed.

(** ** An audit after a write *)





(** ** Values the tag writer cannot store *)

Lemma non_string_set (tags : list (string * json)) (key : string)
    (values : list json) :
  (∃ v, v ∈ values ∧ as_str v = None) →
  holds_non_string key (vc_set tags key values).
Proof.
  intros (v & Hin & Hv). exists v. split; [|done].
  unfold vc_set. apply elem_of_app. right. by apply (list_elem_of_fmap_2 (λ v, (key, v))).
Qed.

Lemma non_string_kept (tags : list (string * json)) (key key' : string)
    (values : list json) :
  key_match key' key = false →
  holds_non_string key tags → holds_non_string key (vc_set tags key' values).
Proof.
  intros Hne (v & Hin & Hv). exists v. split; [|done].
  unfold vc_set. apply elem_of_app. left. apply list_elem_of_filter.
  split; [|done]. change (¬ Is_true (key_match key' key)). rewrite Hne.
  by intros [].
Qed.

Lemma non_string_kept_if (cond : bool) (tags : list (string * json))
    (key key' : string) (values : list json) :
  key_match key' key = false →
  holds_non_string key tags → holds_non_string key (set_if cond key' values tags).
Proof. destruct cond; [apply non_string_kept|done]. Qed.

Lemma non_string_not_saved (fs : FS) (file_path : path)
    (tags : list (string * json)) (key : string) :
  holds_non_string key tags → save fs file_path tags = Raise ValueError.
Proof.
  intros (v & Hin & Hv). unfold save.
  assert (mapM checked_value tags = None) as ->; [|done].
  apply eq_None_not_Some. intros [checked Hchecked].
  apply mapM_Some_1 in Hchecked.
  apply list_elem_of_lookup_1 in Hin as [i Hi].
  destruct (Forall2_lookup_l _ _ _ _ _ Hchecked Hi) as (kv & _ & Hkv).
  unfold checked_value in Hkv. cbn in Hkv. by destruct v.
Qed.

Ltac keep_non_string :=
  repeat first
    [ apply non_string_kept_if; [vm_compute; reflexivity|]
    | apply non_string_kept; [vm_compute; reflexivity|] ].

Lemma new_tags_non_string (E : Env) (items : list (string * json))
    (field tag : string) (tags : list (string * json)) :
  (field, tag) ∈ stored_as_is →
  py_truthy (dict_get items field) = true →
  (∃ v, v ∈ to_values (dict_get items field) ∧ as_str v = None) →
  new_tags E items = Ok tags →
  holds_non_string tag tags.
Proof.
  intros Hfield Htruthy Hbad. unfold new_tags. cbn zeta.
  destruct (py_truthy (dict_get items "performers"));
    [destruct (join_value _ _) as [joined|]; [|done]|];
    cbn [mbind res_bind]; intros [= <-];
    unfold stored_as_is in Hfield;
    repeat (apply elem_of_cons in Hfield as [[= -> ->]|Hfield]);
    try (by apply elem_of_nil in Hfield);
    keep_non_string;
    try (rewrite Htruthy; cbn [set_if]; by apply non_string_set).
  all: destruct (py_truthy (dict_get items "movement"));
    keep_non_string; rewrite Htruthy; cbn [set_if]; by apply non_string_set.
Qed.

(** X28: a value the writer cannot store makes the whole write fail.
    When one of the fields composer, work, movement, orchestra, soloists of
    the reply holds a value that is not empty and is not a string or a list
    of strings (a number, a nested list, an object), the writer reports
    failure and the file keeps its former tags. *)
Theorem X28_non_string_value_fails (E : Env) (fs : FS) (file_path : path)
    (items : list (string * json)) (audio : option handle) (field tag : string) :
  (field, tag) ∈ stored_as_is →
  py_truthy (dict_get items field) = true →
  (∃ v, v ∈ to_values (dict_get items field) ∧ as_str v = None) →
  apply_metadata_to_flac E fs file_path (JObj items) audio = (false, fs).
Proof.
  intros Hfield Htruthy Hbad. unfold apply_metadata_to_flac.
  destruct (match audio with Some a => Valid a | None => _ end) as [a|]; [|done].
  cbn [as_dict mbind res_bind].
  destruct (new_tags E items) as [tags|] eqn:Htags; cbn [mbind res_bind]; [|done].
  by rewrite (non_string_not_saved fs (h_path a) tags tag)
    by by eapply new_tags_non_string.
Qed.

Lemma X28_witness :
  apply_metadata_to_flac offline_env tagged_library partita_path
    (JObj [("composer", JNum 1685)]) None = (false, tagged_library).
Proof.
  apply (X28_non_string_value_fails offline_env tagged_library partita_path
           [("composer", JNum 1685)] None "composer" "COMPOSER").
  - apply list_elem_of_here.
  - reflexivity.
  - exists (JNum 1685). split; [apply list_elem_of_here|reflexivity].
Defined.

(** ** What a run without ffmpeg may change *)

Lemma retagged_refl (fs : FS) : retagged fs fs.
Proof. intros p. by left. Qed.

Lemma retagged_trans (fs1 fs2 fs3 : FS) :
  retagged fs1 fs2 → retagged fs2 fs3 → retagged fs1 fs3.
Proof.
  intros H12 H23 p.
  destruct (H12 p) as [Heq|(tags & tags' & rest & Hp1 & Hp2)],
    (H23 p) as [Heq'|(tags2 & tags2' & rest2 & Hq1 & Hq2)].
  - left. congruence.
  - right. exists tags2, tags2', rest2. split; congruence.
  - right. exists tags, tags', rest. split; congruence.
  - right. exists tags, tags2', rest. split; [done|]. congruence.
Qed.

Lemma apply_metadata_retags (E : Env) (fs : FS) (file_path : path)
    (metadata : json) (audio : option handle) :
  retagged fs (apply_metadata_to_flac E fs file_path metadata audio).2.
Proof.
  unfold apply_metadata_to_flac.
  destruct (match audio with Some a => Valid a | None => _ end) as [a|];
    [|apply retagged_refl].
  destruct (as_dict metadata) as [items|]; cbn [mbind res_bind snd];
    [|apply retagged_refl].
  destruct (new_tags E items) as [tags|]; cbn [mbind res_bind snd];
    [|apply retagged_refl].
  unfold save. destruct (mapM checked_value tags) as [checked|];
    [|apply retagged_refl].
  destruct (fs !! h_path a) as [[bytes|old rest]|] eqn:Hfile; cbn [snd];
    try apply retagged_refl.
  intros p. destruct (decide (p = h_path a)) as [->|Hne].
  - right. exists old, checked, rest. by rewrite lookup_insert_eq.
  - left. by rewrite lookup_insert_ne.
Qed.

Lemma process_file_normal_retags (E : Env) (dry_run : bool) (fs : FS)
    (file_path : path) (c : counters) :
  which_ffmpeg E = false →
  retagged fs (process_file_normal E dry_run fs file_path c).2.
Proof.
  intros Hoff. unfold process_file_normal, validate_or_convert, convert_to_flac.
  rewrite Hoff. cbn [negb].
  destruct (validate_flac_file fs file_path) as [audio|why]; [|apply retagged_refl].
  destruct (has_proper_metadata audio) as [[] missing]; [apply retagged_refl|].
  destruct (py_truthy _); [|apply retagged_refl].
  destruct (display_metadata_table _); [|apply retagged_refl].
  destruct dry_run; cbn [negb]; [apply retagged_refl|].
  pose proof (apply_metadata_retags E fs file_path
    (get_metadata_from_openrouter E file_path.2 (glob_flac_names fs file_path.1) None)
    (Some audio)) as Hretag.
  by destruct (apply_metadata_to_flac _ _ _ _ _) as [[] fs1].
Qed.

Lemma process_file_audit_retags (E : Env) (dry_run : bool) (fs : FS)
    (file_path : path) (c : counters) :
  which_ffmpeg E = false →
  retagged fs (process_file_audit E dry_run fs file_path c).2.
Proof.
  intros Hoff. unfold process_file_audit, validate_or_convert, convert_to_flac.
  rewrite Hoff. cbn [negb].
  destruct (validate_flac_file fs file_path) as [audio|why]; [|apply retagged_refl].
  destruct (py_truthy _); [|apply retagged_refl].
  destruct (detect_changes _ _) as [[[] summary]|e]; try apply retagged_refl.
  destruct dry_run; cbn [negb]; [apply retagged_refl|].
  destruct (confirm_ask E file_path); [|apply retagged_refl].
  pose proof (apply_metadata_retags E fs file_path
    (get_metadata_from_openrouter E file_path.2 (glob_flac_names fs file_path.1)
       (Some (get_current_metadata audio)))
    (Some audio)) as Hretag.
  by destruct (apply_metadata_to_flac _ _ _ _ _) as [[] fs1].
Qed.

Lemma process_files_normal_retags (E : Env) (dry_run : bool)
    (flac_files : list path) (fs : FS) (c : counters) :
  which_ffmpeg E = false →
  retagged fs (process_files_normal E dry_run flac_files fs c).2.
Proof.
  intros Hoff. revert fs c.
  induction flac_files as [|file_path flac_files IH]; intros fs c;
    cbn [process_files_normal]; [apply retagged_refl|].
  pose proof (process_file_normal_retags E dry_run fs file_path c Hoff) as Hstep.
  destruct (process_file_normal E dry_run fs file_path c) as [[c1|e] fs1]; [|done].
  by eapply retagged_trans.
Qed.

Lemma process_files_audit_retags (E : Env) (dry_run : bool)
    (flac_files : list path) (fs : FS) (c : counters) :
  which_ffmpeg E = false →
  retagged fs (process_files_audit E dry_run flac_files fs c).2.
Proof.
  intros Hoff. revert fs c.
  induction flac_files as [|file_path flac_files IH]; intros fs c;
    cbn [process_files_audit]; [apply retagged_refl|].
  pose proof (process_file_audit_retags E dry_run fs file_path c Hoff) as Hstep.
  destruct (process_file_audit E dry_run fs file_path c) as [[c1|e] fs1]; [|done].
  by eapply retagged_trans.
Qed.

(** X29: what a run without ffmpeg may change.  When ffmpeg is not
    installed, a run over a folder, in either mode, dry or live, ended by its
    summary or by an exception, does nothing to the library but rewrite the
    tags of FLAC files: no file is created, deleted or moved, no file that
    is not a FLAC file changes, and every FLAC file keeps its audio data. *)
Theorem X29_run_without_ffmpeg_only_retags (E : Env) (fs : FS)
    (folder_path : string) (dry_run : bool) :
  which_ffmpeg E = false →
  retagged fs (process_folder_normal E fs folder_path dry_run).2
  ∧ retagged fs (process_folder_audit E fs folder_path dry_run).2.
Proof.
  intros Hoff. unfold process_folder_normal, process_folder_audit.
  destruct (scan fs folder_path) as [|file_path flac_files];
    [split; apply retagged_refl|].
  pose proof (process_files_normal_retags E dry_run (file_path :: flac_files) fs
                zero_counters Hoff) as Hnormal.
  pose proof (process_files_audit_retags E dry_run (file_path :: flac_files) fs
                zero_counters Hoff) as Haudit.
  destruct (process_files_normal _ _ _ _ _) as [[c|e] fs1],
    (process_files_audit _ _ _ _ _) as [[c'|e'] fs2]; done.
Qed.

Lemma X29_witness :
  retagged tagged_library
    (process_folder_normal record_reply_env tagged_library "/music" false).2
  ∧ retagged tagged_library
      (process_folder_audit record_reply_env tagged_library "/music" false).2.
Proof.
  apply (X29_run_without_ffmpeg_only_retags record_reply_env tagged_library
           "/music" false).
  reflexivity.
Defined.

(** ** The search for a backup name *)

Lemma first_free_unique (fs : FS) (cand : nat → path) (j k : nat) :
  fs !! cand j = None → (∀ i, (i < j)%nat → is_Some (fs !! cand i)) →
  fs !! cand k = None → (∀ i, (i < k)%nat → is_Some (fs !! cand i)) →
  j = k.
Proof.
  intros Hj Hbelowj Hk Hbelowk.
  destruct (Nat.lt_trichotomy j k) as [Hlt|[->|Hgt]]; [|done|].
  - destruct (Hbelowk j Hlt) as [c Hc]. congruence.
  - destruct (Hbelowj k Hgt) as [c Hc]. congruence.
Qed.

(** X30: the search for a backup name terminates.  The names tried are
    pairwise distinct, so on every file system the while loop stops after at
    most as many rounds as there are files, at the first name that is free:
    every number of rounds above the number of files gives the same result,
    and no existing backup is ever chosen. *)
Theorem X30_backup_search_terminates (E : Env) (fs : FS) (file_path : path)
    (actual_format : format) :
  let cand := backup_candidate E file_path actual_format in
  Inj (=) (=) cand
  ∧ ∃ k, (k ≤ size fs)%nat
         ∧ fs !! cand k = None
         ∧ (∀ i, (i < k)%nat → is_Some (fs !! cand i))
         ∧ free_backup_path E fs file_path actual_format = Some (cand k)
         ∧ ∀ fuel, (size fs < fuel)%nat →
             backup_loop fuel fs
               (λ counter, (backup_folder E,
                            numbered_backup_name file_path actual_format counter))
               (cand 0%nat) 1 = Some (cand k).
Proof.
  cbn zeta. split; [apply backup_candidate_inj|].
  destruct (free_backup_path_spec E file_path actual_format fs)
    as (k & Hfound & Hfree & Hbelow).
  exists k. split_and!; [|done|done|done|].
  - assert (NoDup (backup_candidate E file_path actual_format <$> seq 0 k)) as Hnd.
    { pose proof (backup_candidate_inj E file_path actual_format) as Hinj.
      apply (NoDup_fmap_2 _), NoDup_seq. }
    rewrite <- (size_dom (D := gset path)).
    etrans; [|apply (subseteq_size
                      (list_to_set (backup_candidate E file_path actual_format
                                      <$> seq 0 k)))].
    + rewrite size_list_to_set by done. by rewrite length_fmap, length_seq.
    + intros p. rewrite elem_of_list_to_set, list_elem_of_fmap.
      intros (i & -> & Hi%elem_of_seq). apply elem_of_dom, Hbelow. lia.
  - intros fuel Hfuel.
    destruct (backup_loop_first_free E file_path actual_format fs fuel 0 (dom fs))
      as (j & _ & Hloop & Hfreej & Hbelowj).
    + by rewrite size_dom.
    + intros i _ Hsome. by apply elem_of_dom.
    + rewrite Hloop. do 2 f_equal.
      apply (first_free_unique fs (backup_candidate E file_path actual_format));
        [done| |done|done].
      intros i Hi. apply Hbelowj. lia.
Qed.
